(** * crisis-bot: the bot entry points and the compliance configuration

    A shallow embedding of the JavaScript of MerchantGuardOps/crisis-bot:
    - [Js]: the fragment of JavaScript values, strings and plain objects the
      code relies on ([String.prototype.split], [trim], truthiness, property
      reads and writes on an object literal);
    - [Bot]: [parsePayload], the score line of the volume handler and the
      exported webhook handler of [index.js];
    - [Thresholds]: the constants of [config/complianceThresholds.ts];
    - [Guide]: the code of the configuration usage guide (config load,
      exemption test, regional threshold read, local penalty, alerts);
    - [Engine]: the PSP band lookup and the tier classification, whose code
      is not part of the sources and is modelled from the specification.

    Numbers are the finite decimal values of the configuration; they are
    modelled as rationals, on which [>=] and [<] are exact.  The one
    product the code computes, [Math.random() * 30], is rounded to the
    nearest double as IEEE 754 multiplication does. *)

From Stdlib Require Import QArith Qround Qabs Qpower ZArith String Ascii List Bool Lia Lqa.
From stdpp Require Import base option list gmap strings.
Import ListNotations.

Local Open Scope string_scope.

(* ===================================================================== *)
(** * Definitions *)
(* ===================================================================== *)

Module Js.

(** A JavaScript string is a [string] whose characters are its UTF-16
    code units; code units below 256 are covered. *)

(** [WhiteSpace] and [LineTerminator] code units below 256, the ones
    [String.prototype.trim] strips: TAB, LF, VT, FF, CR, SP, NBSP. *)
Definition white_space_codes : list nat := [9; 10; 11; 12; 13; 32; 160]%nat.

Definition isWhiteSpace (c : ascii) : bool :=
  existsb (Nat.eqb (nat_of_ascii c)) white_space_codes.

Fixpoint trimStart (s : string) : string :=
  match s with
  | EmptyString => EmptyString
  | String c s' => if isWhiteSpace c then trimStart s' else s
  end.

Fixpoint trimEnd (s : string) : string :=
  match s with
  | EmptyString => EmptyString
  | String c s' =>
      match trimEnd s' with
      | EmptyString => if isWhiteSpace c then EmptyString else String c EmptyString
      | r => String c r
      end
  end.

(** [s.trim()] *)
Definition trim (s : string) : string := trimEnd (trimStart s).

(** [s.split(sep)] for a one-character separator: the pieces between the
    occurrences of [sep]; never the empty array. *)
Fixpoint split (sep : ascii) (s : string) : list string :=
  match s with
  | EmptyString => [EmptyString]
  | String c s' =>
      if Ascii.eqb c sep then EmptyString :: split sep s'
      else match split sep s' with
           | [] => [String c EmptyString]
           | piece :: pieces => String c piece :: pieces
           end
  end.

(** [pieces.join(sep)], used to state what [split] returns. *)
Fixpoint join (sep : ascii) (pieces : list string) : string :=
  match pieces with
  | [] => EmptyString
  | [piece] => piece
  | piece :: rest => append piece (String sep (join sep rest))
  end.

(** The values a start payload can be: [ctx.startPayload] is a string, or
    missing. *)
Inductive value : Type :=
| Undefined
| Null
| Str (s : string).

(** [ToBoolean] *)
Definition truthy (v : value) : bool :=
  match v with
  | Undefined | Null => false
  | Str s => negb (String.eqb s "")
  end.

(** [String(v)] *)
Definition ToString (v : value) : string :=
  match v with
  | Undefined => "undefined"
  | Null => "null"
  | Str s => s
  end.

(** Array destructuring [const [a, b] = arr]: a missing element is
    [undefined]. *)
Definition element (arr : list string) (i : nat) : value :=
  match nth_error arr i with
  | Some s => Str s
  | None => Undefined
  end.

(** The property names every object literal inherits from
    [Object.prototype]. *)
Definition object_prototype_keys : list string :=
  [ "constructor"; "__defineGetter__"; "__defineSetter__"; "hasOwnProperty";
    "__lookupGetter__"; "__lookupSetter__"; "isPrototypeOf";
    "propertyIsEnumerable"; "toString"; "valueOf"; "__proto__";
    "toLocaleString" ].

Definition inherited (k : string) : bool :=
  existsb (String.eqb k) object_prototype_keys.

(** [obj[k] = v] on an object created by [{}], its own properties held as a
    finite map.  [__proto__] is an accessor of [Object.prototype]: assigning
    a string to it calls the setter, which ignores a value that is neither
    an object nor [null], and no own property is created.  Every other
    inherited name is a writable data property and is shadowed. *)
Definition set (obj : gmap string string) (k v : string) : gmap string string :=
  if String.eqb k "__proto__" then obj else <[k := v]> obj.

(** How a call ends: with a value, or with a thrown exception. *)
Inductive exn : Type :=
| TypeError (message : string)
| Failure (message : string).

Inductive completion (A : Type) : Type :=
| Return (a : A)
| Throw (e : exn).
Global Arguments Return {A} a.
Global Arguments Throw {A} e.

(** ** Numbers

    A Number is an IEEE 754 double.  The finite doubles are the rationals
    [m * 2^e] with [|m| < 2^53] and [e >= -1074]; an arithmetic operation
    returns its exact result rounded to the nearest double, the one with
    the even significand of two at equal distance.  Magnitudes from
    [2^1024] on, which round to [Infinity], are outside this model. *)

(** [floor(log2 x)] for [0 < x]: the quotient of two integers with
    [2^a] and [2^b] at their heads lies between [2^(a-b-1)] and
    [2^(a-b+1)]; one comparison decides. *)
Definition floor_log2 (x : Q) : Z :=
  let e := (Z.log2 (Qnum x) - Z.log2 (Zpos (Qden x)))%Z in
  if Qle_bool (2 ^ e) x then e else (e - 1)%Z.

(** The exponent of the unit in the last place of the doubles around
    [x]: 53 bits of significand, and no exponent below -1074 (the
    subnormal doubles). *)
Definition ulp_exponent (x : Q) : Z :=
  Z.max (-1074) (floor_log2 (Qabs x) - 52).

(** The integer nearest to [q], the even one of two at equal distance. *)
Definition nearest_even (q : Q) : Z :=
  let n := Qfloor q in
  match (q - inject_Z n ?= 1 # 2)%Q with
  | Lt => n
  | Gt => (n + 1)%Z
  | Eq => if Z.even n then n else (n + 1)%Z
  end.

(** The double nearest to [x]. *)
Definition to_double (x : Q) : Q :=
  (inject_Z (nearest_even (x / 2 ^ ulp_exponent x)) * 2 ^ ulp_exponent x)%Q.

(** The rationals that are doubles: rounding leaves them as they are. *)
Definition is_double (x : Q) : bool := Qeq_bool (to_double x) x.

(** [x * y] *)
Definition times (x y : Q) : Q := to_double (x * y).

End Js.

Module Bot.

(** [parsePayload], index.js.

    function parsePayload(input) {
      if (!input) return {};
      const out = {};
      for (const part of String(input).split(';')) {
        const [key, value] = part.split(':');
        if (key && value) { out[key.trim()] = value.trim(); }
      }
      return out;
    } *)
Definition parsePayload_step (out : gmap string string) (part : string)
  : gmap string string :=
  let pieces := Js.split ":" part in
  let key := Js.element pieces 0 in
  let value := Js.element pieces 1 in
  if Js.truthy key && Js.truthy value
  then Js.set out (Js.trim (Js.ToString key)) (Js.trim (Js.ToString value))
  else out.

Definition parsePayload (input : Js.value) : gmap string string :=
  if negb (Js.truthy input) then ∅
  else fold_left parsePayload_step (Js.split ";" (Js.ToString input)) ∅.

(** The entry one part stores, if any: the loop body without the object. *)
Definition part_entry (part : string) : option (string * string) :=
  match Js.split ":" part with
  | key :: value :: _ =>
      if negb (String.eqb key "") && negb (String.eqb value "")
      then Some (Js.trim key, Js.trim value)
      else None
  | _ => None
  end.

(** What one part of the payload contributes, in the words of the
    specification: splitting it on [:] yields a non-empty first piece and a
    non-empty second piece (whatever follows a second [:] is dropped), and
    the entry is the two pieces trimmed. *)
Definition defines (part k v : string) : Prop :=
  ∃ key value rest,
    Js.split ":" part = key :: value :: rest
    ∧ key ≠ "" ∧ value ≠ "" ∧ Js.trim key = k ∧ Js.trim value = v.

(** The entry of [k] is the one of the last part that defines [k]. *)
Definition last_defines (parts : list string) (k v : string) : Prop :=
  ∃ before part after,
    parts = (before ++ part :: after)%list
    ∧ defines part k v
    ∧ ∀ part' v', part' ∈ after → ¬ defines part' k v'.

(** The handler of the actions [vol_10k], [vol_50k], [vol_200k] and
    [vol_200k_plus], index.js:

    // Generate instant GuardScore based on selections
    const score = Math.floor(Math.random() * 30) + 60; // 60-90 range

    [random] is the number [Math.random()] returns, a double in [0, 1);
    the handler reads nothing else to compute the score it replies with.
    The product is the double nearest to the exact one; [Math.floor] of
    a double and the sum of two small integers are exact. *)
Definition score (action : string) (random : Q) : Z :=
  (Qfloor (Js.times random 30) + 60)%Z.

(** ** The exported webhook handler *)

Inductive body : Type :=
| OkTrue                                  (* { ok: true } *)
| Ready (message timestamp : string)      (* { message, timestamp } *)
| ErrorBody (error : string).             (* { error } *)

Record response : Type := Response { status : Z; json : body }.

Record request (U : Type) : Type := Request { method : string; update : U }.
Global Arguments Request {U} method update.
Global Arguments method {U} r.
Global Arguments update {U} r.

(** What a line of [console.error] logs after its label: an error, or
    an update. *)
Inductive logged (U : Type) : Type :=
| error (e : Js.exn)
| update_of (u : U).
Global Arguments error {U} e.
Global Arguments update_of {U} u.

Section Webhook.

(** [U]: the updates of [req.body]; [B]: whatever the handlers of the
    bot work on (the Telegram side); they are not handed [res].  [res] is
    the response helper of the host: [status] and [json] record the call
    and return.  [handleUpdate] is what Telegraf runs an update through:
    the handlers registered on the bot. *)
Context {U B : Type}.
Variable handleUpdate : U → B → Js.completion () * B.

(** The two texts in which the three copies of the bot differ:
    ['MerchantGuard Bot Ready!'] and ['Bot error'] in index.js. *)
Variables ready_message error_text : string.

(** What a call of the handler can observe and change: the responses
    sent on [res] so far, the status code set on [res], the lines of
    [console.error], [process.exitCode] ([None]: not set), the clock and
    the state of the bot. *)
Record world : Type := World {
  sent : list response;
  statusCode : Z;
  console : list (string * logged U);
  exitCode : option Z;
  clock : string;
  bot : B
}.

Definition io (A : Type) : Type := world → Js.completion A * world.

Definition io_bind {A C} (m : io A) (k : A → io C) : io C :=
  λ w, match m w with
       | (Js.Return a, w') => k a w'
       | (Js.Throw e, w') => (Js.Throw e, w')
       end.

(** [try { m } catch (error) { h(error) }] *)
Definition try_catch {A} (m : io A) (h : Js.exn → io A) : io A :=
  λ w, match m w with
       | (Js.Return a, w') => (Js.Return a, w')
       | (Js.Throw e, w') => h e w'
       end.

(** [res.status(code)] *)
Definition res_status (code : Z) : io () :=
  λ w, (Js.Return (), World (sent w) code (console w) (exitCode w) (clock w) (bot w)).

(** [.json(b)]: sends [b] under the status code set on [res]. *)
Definition res_json (b : body) : io () :=
  λ w, (Js.Return (),
        World (sent w ++ [Response (statusCode w) b]) (statusCode w)
              (console w) (exitCode w) (clock w) (bot w)).

(** [await bot.handleUpdate(u)].  Telegraf runs the update through the
    handlers of the bot; when they throw, its error handler (the default
    one: the sources install no other with [bot.catch]) sets
    [process.exitCode = 1], writes the line
    ['Unhandled error while processing'] with the update through
    [console.error], and throws the error again.  How Telegraf builds
    the context before it runs the handlers is not modelled. *)
Definition bot_handleUpdate (u : U) : io () :=
  λ w, match handleUpdate u (bot w) with
       | (Js.Return a, b') =>
           (Js.Return a,
            World (sent w) (statusCode w) (console w) (exitCode w) (clock w) b')
       | (Js.Throw e, b') =>
           (Js.Throw e,
            World (sent w) (statusCode w)
                  (console w ++ [("Unhandled error while processing", update_of u)])
                  (Some 1%Z) (clock w) b')
       end.

(** [new Date().toISOString()] *)
Definition now_iso : io string := λ w, (Js.Return (clock w), w).

(** [console.error(label, error)] *)
Definition console_error (label : string) (e : Js.exn) : io () :=
  λ w, (Js.Return (),
        World (sent w) (statusCode w) (console w ++ [(label, error e)])
              (exitCode w) (clock w) (bot w)).

(** [module.exports = async (req, res) => { ... }], index.js:

    try {
      if (req.method === 'POST') {
        await bot.handleUpdate(req.body);
        res.status(200).json({ ok: true });
      } else {
        res.status(200).json({ message: 'MerchantGuard Bot Ready!',
                               timestamp: new Date().toISOString() });
      }
    } catch (error) {
      console.error('Bot error:', error);
      res.status(500).json({ error: 'Bot error' });
    } *)
Definition handler (req : request U) : io () :=
  try_catch
    (if String.eqb (method req) "POST" then
       io_bind (bot_handleUpdate (update req)) (λ _,
       io_bind (res_status 200) (λ _,
       res_json OkTrue))
     else
       io_bind now_iso (λ timestamp,
       io_bind (res_status 200) (λ _,
       res_json (Ready ready_message timestamp))))
    (λ error,
       io_bind (console_error (append error_text ":") error) (λ _,
       io_bind (res_status 500) (λ _,
       res_json (ErrorBody error_text)))).

(** The response a request is owed, case by case, in the words of the
    specification. *)
Definition owed (req : request U) (w : world) : response :=
  if String.eqb (method req) "POST" then
    match fst (handleUpdate (update req) (bot w)) with
    | Js.Return _ => Response 200 OkTrue
    | Js.Throw _ => Response 500 (ErrorBody error_text)
    end
  else Response 200 (Ready ready_message (clock w)).

End Webhook.

(** index.js *)
Definition index_handler {U B} (handleUpdate : U → B → Js.completion () * B) :=
  handler handleUpdate "MerchantGuard Bot Ready!" "Bot error".

End Bot.

Module Thresholds.

(** config/complianceThresholds.ts, [export const thresholds]. *)
Record vamp_thresholds : Type := {
  warn_cb_rate : Q;            (* 0.65% (warning threshold) *)
  breach_cb_rate : Q;          (* 1.00% (monitoring threshold) *)
  fine_bands_usd : list Q      (* illustrative fine bands *)
}.

Record pix_thresholds : Type := {
  green_max : Q;               (* 0.30% (green tier max) *)
  watch_min : Q;               (* 0.45% (watch tier min) *)
  red_min : Q;                 (* 0.55% (red tier min) *)
  reserve_bands : string * string * string   (* green, watch, red *)
}.

Definition vamp : vamp_thresholds :=
  {| warn_cb_rate := 0.0065;
     breach_cb_rate := 0.0100;
     fine_bands_usd := [5000; 25000; 50000]%Q |}.

Definition pix : pix_thresholds :=
  {| green_max := 0.0030;
     watch_min := 0.0045;
     red_min := 0.0055;
     reserve_bands := ("10%", "15%", "20% + 150 bps") |}.

End Thresholds.

Module Engine.

(** The code of the band lookup ([getPSPRiskLevel], called by the usage
    guide), of the tier classification and of the table
    [psp_internal_thresholds] is not part of the sources. *)

(** Modelled from the spec: a row of the ordered list of PSP shadow bands
    (data model, PSPShadowBand); the consequence text is not needed here. *)
Record PSPShadowBand : Type := {
  lower_bound_fraction : Q;
  label : string
}.

Definition Qlt_bool (x y : Q) : bool := negb (Qle_bool y x).

(** The invariant of the band list: bounds strictly increasing. *)
Fixpoint bounds_increasing (bands : list PSPShadowBand) : bool :=
  match bands with
  | [] => true
  | b :: rest =>
      match rest with
      | [] => true
      | b' :: _ => Qlt_bool (lower_bound_fraction b) (lower_bound_fraction b')
      end && bounds_increasing rest
  end.

(** Modelled from the spec: [lookupPSPBand], the body of the
    [getPSPRiskLevel] the usage guide calls.  A linear search over the
    ordered bands: the highest band whose lower bound is at most the
    ratio, none when the ratio is below all of them.  The search stops at
    the first band above the ratio. *)
Fixpoint lookupPSPBand (bands : list PSPShadowBand) (ratio : Q)
  : option PSPShadowBand :=
  match bands with
  | [] => None
  | b :: rest =>
      if Qle_bool (lower_bound_fraction b) ratio
      then match lookupPSPBand rest ratio with
           | Some higher => Some higher
           | None => Some b
           end
      else None
  end.

Section Bands.

(** Modelled from the spec: the two bands the specification names, 0.3%
    ("reserves likely") and 0.9% ("termination likely"), are [band_03]
    and [band_09].  The usage guide lists two more bounds, 0.5% and 0.7%;
    their texts are given neither by the sources nor by the
    specification and are left open. *)
Variables label_05 label_07 : string.

Definition band_03 : PSPShadowBand := {| lower_bound_fraction := 0.003; label := "reserves likely" |}.
Definition band_05 : PSPShadowBand := {| lower_bound_fraction := 0.005; label := label_05 |}.
Definition band_07 : PSPShadowBand := {| lower_bound_fraction := 0.007; label := label_07 |}.
Definition band_09 : PSPShadowBand := {| lower_bound_fraction := 0.009; label := "termination likely" |}.

(** A table with the four bounds the usage guide lists for
    [psp_internal_thresholds] (0.3%, 0.5%, 0.7%, 0.9%), as fractions.
    /config/thresholds.json itself is not part of the sources; this
    table is sample data for the lookup and the calculator, not the
    table of the specification, which is [shadow_bands]. *)
Definition psp_internal_thresholds : list PSPShadowBand :=
  [band_03; band_05; band_07; band_09].

End Bands.

(** Modelled from the spec: the ordered list of PSP shadow bands, with
    the bands the specification gives (data model, PSPShadowBand:
    0.3% "reserves likely", 0.9% "termination likely"). *)
Definition shadow_bands : list PSPShadowBand := [band_03; band_09].

(** Modelled from the spec: the four tiers of a ClassificationResult. *)
Inductive Tier : Type := green | watch | red | critical.

(** Stricter tiers rank higher. *)
Definition rank (t : Tier) : nat :=
  match t with green => 0 | watch => 1 | red => 2 | critical => 3 end%nat.

(** Modelled from the spec: the regime resolved for a snapshot (data
    model, RegionThreshold), as far as step 3 reads it: its current
    threshold and the next boundary the region defines. *)
Record RegionThreshold : Type := {
  current_threshold : Q;
  next_boundary : Q
}.

(** Region US, metric VAMP: the two rates of
    config/complianceThresholds.ts. *)
Definition us_vamp : RegionThreshold :=
  {| current_threshold := Thresholds.warn_cb_rate Thresholds.vamp;
     next_boundary := Thresholds.breach_cb_rate Thresholds.vamp |}.

(** Metric PIX MED: the watch and the red rate of
    config/complianceThresholds.ts. *)
Definition pix_med : RegionThreshold :=
  {| current_threshold := Thresholds.watch_min Thresholds.pix;
     next_boundary := Thresholds.red_min Thresholds.pix |}.

(** Modelled from the spec: step 3 of the evaluator without the
    escalation, whose code is missing: below the current threshold green,
    from it up to the next boundary watch, from the next boundary on
    red. *)
Definition regulatoryTier (regime : RegionThreshold) (ratio : Q) : Tier :=
  if Qlt_bool ratio (current_threshold regime) then green
  else if Qlt_bool ratio (next_boundary regime) then watch
  else red.

(** Modelled from the spec: the escalation rule of step 3, whose code is
    missing: a ratio at or above the highest shadow band is critical
    whatever the regulatory tier. *)
Definition terminal (bands : list PSPShadowBand) (ratio : Q) : bool :=
  match last bands with
  | Some top => Qle_bool (lower_bound_fraction top) ratio
  | None => false
  end.

(** Modelled from the spec: the two fields of a ClassificationResult that
    steps 3 and 4 fill. *)
Record ClassificationResult : Type := {
  tier : Tier;
  psp_risk_band : option PSPShadowBand
}.

Definition psp_risk_label (r : ClassificationResult) : option string :=
  label <$> psp_risk_band r.

(** Modelled from the spec: steps 3 and 4 of [evaluate], whose code is
    missing, for a snapshot to which no exemption applies and whose
    regime has resolved to [regime]. *)
Definition evaluate (regime : RegionThreshold) (bands : list PSPShadowBand)
    (dispute_ratio : Q) : ClassificationResult :=
  {| tier := if terminal bands dispute_ratio then critical
             else regulatoryTier regime dispute_ratio;
     psp_risk_band := lookupPSPBand bands dispute_ratio |}.

End Engine.

Module Guide.

(** The code of the configuration usage guide. *)

(** ** The two configuration documents

    The guide reads [regions[..].current_threshold],
    [psp_internal_thresholds], [currency_conversions.usd_base],
    [approximate_rates[..].amount] and [domestic_only[..].country_code].
    The fields [future_threshold], [valid_from] and [valid_until] are the
    ones the data model of the specification adds to these rows. *)

Record region_row : Type := {
  current_threshold : Q;
  future_threshold : Q
}.

Record rate_entry : Type := { amount : Q }.

Record currency_conversions_t : Type := {
  usd_base : Q;
  approximate_rates : gmap string rate_entry
}.

(** /config/thresholds.json *)
Record thresholds_doc : Type := {
  regions : gmap string region_row;     (* merchant_thresholds.regions *)
  psp_internal_thresholds : list Engine.PSPShadowBand;
  currency_conversions : currency_conversions_t
}.

Record exemption : Type := {
  country_code : string;
  valid_from : Z;
  valid_until : option Z
}.

(** /config/exemptions.json *)
Record exemptions_doc : Type := {
  domestic_only : list exemption        (* country_exemptions.domestic_only *)
}.

(** ** Calculator integration: loading *)

(** [p.then(f)] on a settled promise: [Return] is fulfilled, [Throw]
    rejected. *)
Definition and_then {A C} (p : Js.completion A) (f : A → Js.completion C)
  : Js.completion C :=
  match p with
  | Js.Return a => f a
  | Js.Throw e => Js.Throw e
  end.

(** [await Promise.all([p, q])]: both values when both are fulfilled,
    otherwise the reason of the promise that rejected first;
    [left_first] tells which one that is when both reject. *)
Definition promise_all2 {A C} (left_first : bool)
    (p : Js.completion A) (q : Js.completion C) : Js.completion (A * C) :=
  match p, q with
  | Js.Return a, Js.Return c => Js.Return (a, c)
  | Js.Throw e, Js.Return _ => Js.Throw e
  | Js.Return _, Js.Throw e => Js.Throw e
  | Js.Throw e, Js.Throw e' => Js.Throw (if left_first then e else e')
  end.

Section Load.

(** The network and the JSON parser: what [fetch(url)] settles to, and
    what [r.json()] settles to on a response. *)
Context {R : Type}.
Variable fetch : string → Js.completion R.
Variable json_thresholds : R → Js.completion thresholds_doc.
Variable json_exemptions : R → Js.completion exemptions_doc.

(** const [thresholds, exemptions] = await Promise.all([
      fetch('/config/thresholds.json').then(r => r.json()),
      fetch('/config/exemptions.json').then(r => r.json())
    ]); *)
Definition load (left_first : bool)
  : Js.completion (thresholds_doc * exemptions_doc) :=
  promise_all2 left_first
    (and_then (fetch "/config/thresholds.json") json_thresholds)
    (and_then (fetch "/config/exemptions.json") json_exemptions).

End Load.

(** What the specification asks a load to reject, in its words: a
    [future_threshold] at or below the [current_threshold], band bounds
    that are not strictly increasing, a rate that is not positive, an
    exemption whose [valid_until] precedes its [valid_from]. *)
Definition spec_valid (t : thresholds_doc) (e : exemptions_doc) : bool :=
  forallb (λ row, Engine.Qlt_bool (current_threshold row) (future_threshold row))
          (snd <$> map_to_list (regions t))
  && Engine.bounds_increasing (psp_internal_thresholds t)
  && forallb (λ rate, Engine.Qlt_bool 0 (amount rate))
             (snd <$> map_to_list (approximate_rates (currency_conversions t)))
  && forallb (λ x, match valid_until x with
                   | Some until => (valid_from x <=? until)%Z
                   | None => true
                   end)
             (domestic_only e).

(** ** Calculator integration: the three reads *)

(** const isDomesticExempt = exemptions.country_exemptions.domestic_only
      .some(country => country.country_code === userCountry); *)
Definition isDomesticExempt (e : exemptions_doc) (userCountry : string) : bool :=
  existsb (λ country, String.eqb (country_code country) userCountry)
          (domestic_only e).

(** The message of the [TypeError] for reading a property of [undefined]. *)
Definition type_error_message : string :=
  "Cannot read properties of undefined (reading 'current_threshold')".

(** A number read from the configuration, or [undefined]. *)
Inductive number : Type := Num (q : Q) | NoNumber.

(** const regionThreshold =
      thresholds.merchant_thresholds.regions[userRegion].current_threshold;

    [regions[userRegion]] is the row of an own key; for a name inherited
    from [Object.prototype] it is a function or the prototype, whose
    [current_threshold] is [undefined]; for any other key it is
    [undefined], and reading [current_threshold] of it throws. *)
Definition regionThreshold (t : thresholds_doc) (userRegion : string)
  : Js.completion number :=
  match regions t !! userRegion with
  | Some row => Js.Return (Num (current_threshold row))
  | None =>
      if Js.inherited userRegion then Js.Return NoNumber
      else Js.Throw (Js.TypeError type_error_message)
  end.

Section Calculator.

(** [getPSPRiskLevel] is called by the guide and defined nowhere in the
    sources. *)
Context {Risk : Type}.
Variable getPSPRiskLevel : Q → list Engine.PSPShadowBand → Risk.

Record calculation : Type := {
  calc_isDomesticExempt : bool;
  calc_regionThreshold : number;
  calc_pspRisk : Risk
}.

(** The three statements of the calculator, in their order:
    [isDomesticExempt], [regionThreshold], then
    const pspRisk = getPSPRiskLevel(disputeRatio,
                                    thresholds.psp_internal_thresholds); *)
Definition calculator (t : thresholds_doc) (e : exemptions_doc)
    (userCountry userRegion : string) (disputeRatio : Q)
  : Js.completion calculation :=
  let exempt := isDomesticExempt e userCountry in
  and_then (regionThreshold t userRegion) (λ threshold,
  Js.Return {| calc_isDomesticExempt := exempt;
               calc_regionThreshold := threshold;
               calc_pspRisk := getPSPRiskLevel disputeRatio
                                 (psp_internal_thresholds t) |}).

End Calculator.

(** ** Article generation *)

(** const penalties = thresholds.currency_conversions.approximate_rates;
    const localPenalty = penalties[userCurrency]?.amount
                         || thresholds.currency_conversions.usd_base;

    Without an own entry, [penalties[userCurrency]?.amount] is
    [undefined] (also for an inherited name, a function without
    [amount]); [||] then, and for an amount of zero, yields [usd_base]. *)
Definition localPenalty (t : thresholds_doc) (userCurrency : string)
  : Js.completion Q :=
  let penalties := approximate_rates (currency_conversions t) in
  match penalties !! userCurrency with
  | Some entry =>
      if Qeq_bool (amount entry) 0
      then Js.Return (usd_base (currency_conversions t))
      else Js.Return (amount entry)
  | None => Js.Return (usd_base (currency_conversions t))
  end.

(** ** Compliance alerts *)

Definition critical_alert : string :=
  "CRITICAL: You're at PSP termination level. Most processors cut merchants at 0.9%.".
Definition warning_alert : string :=
  "WARNING: Reserves and rate increases likely at 0.7%+.".

(** if (disputeRatio >= 0.9) { alert = "CRITICAL: ..."; }
    else if (disputeRatio >= 0.7) { alert = "WARNING: ..."; }

    The ratio is compared in percent: 0.9 stands for 0.9%.  [None]: no
    alert is assigned. *)
Definition alert (disputeRatio : Q) : option string :=
  if Qle_bool 0.9 disputeRatio then Some critical_alert
  else if Qle_bool 0.7 disputeRatio then Some warning_alert
  else None.

(** A dispute ratio given as a fraction, in the unit of the alert code:
    0.009 is 0.9%. *)
Definition percent (fraction : Q) : Q := fraction * 100.

(** The two alerts as a band list, bounds in percent. *)
Definition alert_bands : list Engine.PSPShadowBand :=
  [ {| Engine.lower_bound_fraction := 0.7; Engine.label := warning_alert |};
    {| Engine.lower_bound_fraction := 0.9; Engine.label := critical_alert |} ].

(** ** The configuration the guide describes *)

(** Currency conversions ($8 USD → €7.3, R$44, etc.) *)
Definition guide_conversions : currency_conversions_t :=
  {| usd_base := 8;
     approximate_rates := {[ "EUR" := {| amount := 7.3 |};
                             "BRL" := {| amount := 44 |} ]} |}.

(** ** Sample documents *)

(** A well-formed pair of documents: the US row holds the two VAMP rates
    of config/complianceThresholds.ts; Brazil, Chile and India are the
    countries the guide names as exempt for domestic transactions. *)
Definition sample_thresholds : thresholds_doc :=
  {| regions := {[ "US" := {| current_threshold := 0.0065;
                              future_threshold := 0.01 |} ]};
     psp_internal_thresholds := Engine.psp_internal_thresholds "0.5%" "0.7%";
     currency_conversions := guide_conversions |}.

(** The same document with another current threshold in the US row. *)
Definition sample_thresholds_other_row : thresholds_doc :=
  {| regions := {[ "US" := {| current_threshold := 0.009;
                              future_threshold := 0.01 |} ]};
     psp_internal_thresholds := psp_internal_thresholds sample_thresholds;
     currency_conversions := currency_conversions sample_thresholds |}.

Definition sample_exemptions : exemptions_doc :=
  {| domestic_only :=
       [ {| country_code := "BR"; valid_from := 0; valid_until := None |};
         {| country_code := "CL"; valid_from := 0; valid_until := None |};
         {| country_code := "IN"; valid_from := 0; valid_until := None |} ] |}.

(** A pair of documents with each of the four defects the specification
    wants a load to reject. *)
Definition defective_thresholds : thresholds_doc :=
  {| regions := {[ "US" := {| current_threshold := 0.01;
                              future_threshold := 0.0065 |} ]};
     psp_internal_thresholds := [Engine.band_09; Engine.band_03];
     currency_conversions :=
       {| usd_base := 8;
          approximate_rates := {[ "EUR" := {| amount := -1 |} ]} |} |}.

Definition defective_exemptions : exemptions_doc :=
  {| domestic_only :=
       [ {| country_code := "BR"; valid_from := 10; valid_until := Some 5%Z |} ] |}.

End Guide.


Module Payload.

(** Helpers to speak about start payloads: which characters a string
    holds, and how a list of entries is written as a payload. *)

(** [s.includes(c)] *)
Fixpoint includes (c : ascii) (s : string) : bool :=
  match s with
  | EmptyString => false
  | String c' s' => Ascii.eqb c' c || includes c s'
  end.

(** A key or a value that survives the trip through a payload unchanged:
    not empty, free of [;] and [:], and without white space at either end. *)
Definition clean (s : string) : bool :=
  negb (String.eqb s "")
  && negb (includes ";" s)
  && negb (includes ":" s)
  && String.eqb (Js.trim s) s.

Definition clean_entry (e : string * string) : bool :=
  clean (fst e) && clean (snd e) && negb (String.eqb (fst e) "__proto__").

(** The payload that lists the entries: [k1:v1;k2:v2;...]. *)
Definition encode (entries : list (string * string)) : string :=
  Js.join ";" ((λ e, append (fst e) (String ":" (snd e))) <$> entries).

End Payload.

Module Eff.

(** Asynchronous code over a state [S]: a computation ends with a value
    or with a thrown exception, and leaves a state either way. *)
Section Monad.

Context {S : Type}.

Definition M (A : Type) : Type := S → Js.completion A * S.

Definition ret {A} (a : A) : M A := λ s, (Js.Return a, s).

(** [throw e] *)
Definition throw {A} (e : Js.exn) : M A := λ s, (Js.Throw e, s).

Definition bind {A C} (m : M A) (k : A → M C) : M C :=
  λ s, match m s with
       | (Js.Return a, s') => k a s'
       | (Js.Throw e, s') => (Js.Throw e, s')
       end.

(** [await m; k] *)
Definition seq {A C} (m : M A) (k : M C) : M C := bind m (λ _, k).

(** [try { m } catch (error) { h(error) }] *)
Definition try_catch {A} (m : M A) (h : Js.exn → M A) : M A :=
  λ s, match m s with
       | (Js.Return a, s') => (Js.Return a, s')
       | (Js.Throw e, s') => h e s'
       end.

(** [for (const x of items) { await body(x) }] *)
Fixpoint for_of {A} (items : list A) (body : A → M ()) : M () :=
  match items with
  | [] => ret ()
  | x :: rest => seq (body x) (for_of rest body)
  end.

End Monad.

End Eff.

Module Menu.

(** The bot of index.js: the guides, the [/start] handler, the action
    handlers and their routing.  A text literal of the source, which no
    code reads, is named by the words of its first line; the labels of the
    buttons and [parse_mode] are left out, as are the [console.log]
    lines. *)

Record guide : Type := {
  title : string;
  summary : string;
  checklist : list string
}.

Definition quote : string := String (ascii_of_nat 34) EmptyString.

(** [const GUIDES = { section43: ..., match: ..., highrisk: ... }] *)
Definition guide_section43 : guide :=
  {| title := "Section 4.3 Stripe Fund Release Guide";
     summary := "87% fund recovery; 30–60 day acceleration vs 94-day generic waiting.";
     checklist :=
       [ "• Confirm payment account and acquirer reference number";
         "• Assemble cause-cured evidence (dated fixes, security improvements, logs)";
         "• Draft Section 4.3 compliance letter with before/after metrics";
         "• Submit via acquirer portal; request written SLA; track weekly status" ] |}.

Definition guide_match : guide :=
  {| title := "MATCH Removal — 10-Day Filing Strategy";
     summary := ("94% success rate with 10-day filing vs " ++ quote ++ "wait 5 years" ++ quote ++ " generic advice.");
     checklist :=
       [ "• Confirm exact reason code and placing acquirer identity";
         "• Build comprehensive cause-cured evidence with dated proof documents";
         "• Draft one-page removal letter (timeline, fixes, quantified metrics)";
         "• Submit via acquirer and track response; escalate at day 21 if needed" ] |}.

Definition guide_highrisk : guide :=
  {| title := "Emergency High-Risk Setup (48–72h)";
     summary := "48–72 hour emergency processing vs 5–14 day generic timelines.";
     checklist :=
       [ "• Pick emergency descriptor strategy and geo/BIN routing rules";
         "• Enable 3DS on high-risk traffic only; TRA exemptions on clean transactions";
         "• Stand up bridge processor; freeze risky traffic patterns for 72h";
         "• Set up emergency alerts + refund protocols; publish crisis support line" ] |}.

Definition GUIDES : gmap string guide :=
  {[ "section43" := guide_section43;
     "match" := guide_match;
     "highrisk" := guide_highrisk ]}.

(** What [GUIDES[k]] is when it is not [undefined]: a guide of the table,
    or, for a name inherited from [Object.prototype], a function or the
    prototype itself, which has no [title], [summary] or [checklist]. *)
Inductive looked_up : Type :=
| own (g : guide)
| from_prototype.

Definition GUIDES_at (k : string) : option looked_up :=
  match GUIDES !! k with
  | Some g => Some (own g)
  | None => if Js.inherited k then Some from_prototype else None
  end.

(** [guide.title], [guide.summary], [guide.checklist]; [None] is
    [undefined]. *)
Definition title_of (x : looked_up) : option string :=
  match x with own g => Some (title g) | from_prototype => None end.
Definition summary_of (x : looked_up) : option string :=
  match x with own g => Some (summary g) | from_prototype => None end.
Definition checklist_of (x : looked_up) : option (list string) :=
  match x with own g => Some (checklist g) | from_prototype => None end.

(** [Markup.button.callback(label, data)] and
    [Markup.button.url(label, href)]; every keyboard of the bot has one
    button per row. *)
Inductive button : Type :=
| callback (data : string)
| url (href : string).

Definition keyboard : Type := list button.

Inductive text : Type :=
| emergency_caption (title summary : option string)
    (* the template with title, summary and the checklist announcement *)
| emergency_text (title summary : option string)
    (* the template with title and summary *)
| plain (s : string)
| literal (first_line : string)
| score_message (score : Z).
    (* the template with [${score}/100] *)

(** The calls a handler makes on [ctx], as they reach Telegram: the text
    and the inline keyboard of the request, its
    [reply_markup.inline_keyboard], which is [[]] when there is none. *)
Inductive call : Type :=
| answerCbQuery
| reply (t : text) (kb : keyboard)
| replyWithPhoto (photo : string) (t : text) (kb : keyboard).

(** The extra argument of [ctx.reply] and [ctx.replyWithPhoto], as far as
    buttons go.  [Markup.inlineKeyboard(rows)] builds the object
    [{ reply_markup: { inline_keyboard: rows } }], which is an extra by
    itself.  Written as the value of the key [reply_markup] of an options
    object it is sent one level down, as
    [reply_markup.reply_markup.inline_keyboard], where Telegram does not
    read it. *)
Inductive extra : Type :=
| markup (rows : keyboard)
    (* ctx.reply(text, Markup.inlineKeyboard(rows)) *)
| options (reply_markup : option keyboard).
    (* ctx.reply(text, { parse_mode: 'Markdown' }), and
       ctx.reply(text, { parse_mode: 'Markdown',
                         reply_markup: Markup.inlineKeyboard(rows) }) *)

(** [extra.reply_markup.inline_keyboard], the inline keyboard of the
    request; [[]] when it is [undefined]. *)
Definition inline_keyboard (e : extra) : keyboard :=
  match e with
  | markup rows => rows
  | options _ => []
  end.

Definition terms : button := url "https://merchantguard.ai/terms".
Definition privacy : button := url "https://merchantguard.ai/privacy".
Definition hero_image : string := "https://www.merchantguard.ai/guardscore_hero.png".
Definition volumes : keyboard :=
  [callback "vol_10k"; callback "vol_50k"; callback "vol_200k"; callback "vol_200k_plus"].

(** One [bot.action(triggers, async (ctx) => { await ctx.answerCbQuery();
    await ctx.reply(text, { parse_mode: 'Markdown', reply_markup:
    Markup.inlineKeyboard(rows) }) })]: every action handler of index.js
    has this shape; only the volume handler computes part of its text.
    [buttons] are the rows the handler writes under [reply_markup], [[]]
    where its options hold [parse_mode] alone. *)
Record action : Type := {
  triggers : list string;
  body : Q → text;
  buttons : keyboard
}.

(** The options an action replies with. *)
Definition reply_options (a : action) : extra :=
  options (match buttons a with [] => None | rows => Some rows end).

(** The inline keyboard the reply of an action reaches Telegram with. *)
Definition shown (a : action) : keyboard := inline_keyboard (reply_options a).

(** The [bot.action] registrations, in their order. *)
Definition actions : list action :=
  [ {| triggers := ["accept_terms"];
       body := λ _, literal "Get your GuardScore in 60s";
       buttons := [callback "start_60s_assessment"; callback "fast_track_199";
                   callback "start_full_assessment"; callback "premium_kit_499"; terms] |};
    {| triggers := ["start_assessment"];
       body := λ _, literal "Starting Full Assessment";
       buttons := [] |};
    {| triggers := ["fast_track_199"];
       body := λ _, literal "Fast Track Assessment";
       buttons := [url "https://merchantguard.ai/packages-simple"] |};
    {| triggers := ["buy_emergency_199"];
       body := λ _, literal "Emergency Pack Purchase";
       buttons := [url "https://merchantguard.ai/packages-simple"] |};
    {| triggers := ["start_guardscore"];
       body := λ _, literal "60-Second GuardScore Assessment";
       buttons := [callback "biz_ecommerce"; callback "biz_health"; callback "biz_gaming";
                   callback "biz_fintech"; callback "biz_saas"; callback "biz_other"] |};
    {| triggers := ["start_60s_assessment"];
       body := λ _, literal "60-Second GuardScore Starting...";
       buttons := [callback "biz_ecommerce"; callback "biz_gaming"; callback "biz_health";
                   callback "biz_fintech"; callback "biz_saas"] |};
    {| triggers := ["start_full_assessment"];
       body := λ _, literal "Full Assessment - HMAC Passport Generation";
       buttons := [url "https://merchantguard.ai/tools/guardscore-telegram";
                   callback "accept_terms"] |};
    {| triggers := ["premium_kit_499"];
       body := λ _, literal "Premium Kit - Expert Review ($499)";
       buttons := [url "https://merchantguard.ai/packages-simple?kit=premium";
                   callback "accept_terms"] |};
    {| triggers := ["biz_ecommerce"];
       body := λ _, literal "E-commerce/Retail Selected";
       buttons := volumes |};
    {| triggers := ["biz_gaming"; "biz_health"; "biz_fintech"; "biz_saas"];
       body := λ _, literal "Question 2/5: What's your monthly processing volume?";
       buttons := volumes |};
    {| triggers := ["vol_10k"; "vol_50k"; "vol_200k"; "vol_200k_plus"];
       body := λ random, score_message (Bot.score "" random);
       buttons := [callback "psp_readiness_199"; callback "match_liberation_499";
                   callback "free_action_plan"; callback "start_guardscore"] |};
    {| triggers := ["psp_readiness_199"];
       body := λ _, literal "PSP Readiness Pack - $199";
       buttons := [url "https://merchantguard.ai/packages"; callback "show_results"] |};
    {| triggers := ["match_liberation_499"];
       body := λ _, literal "MATCH Liberation - $499";
       buttons := [url "https://merchantguard.ai/packages"; callback "show_results"] |};
    {| triggers := ["free_action_plan"];
       body := λ _, literal "Your Free Action Plan";
       buttons := [callback "psp_readiness_199"; callback "start_guardscore"] |} ].

(** The keyboards of the [/start] handler, as it writes them. *)
Definition crisis_keyboard : keyboard :=
  [callback "buy_emergency_199"; callback "start_guardscore"].
Definition welcome_keyboard : keyboard := [callback "start_guardscore"; terms; privacy].
Definition welcome_text_keyboard : keyboard := [callback "accept_terms"; terms; privacy].

(** Telegraf routes a callback query to the first action one of whose
    string triggers equals its data; the handlers never call [next]. *)
Definition route (data : string) : option action :=
  List.find (λ a, existsb (String.eqb data) (triggers a)) actions.

Definition callbacks (kb : keyboard) : list string :=
  omap (λ b, match b with callback d => Some d | url _ => None end) kb.

(** The callback data the bot has an action for. *)
Definition handled : list string := concat (triggers <$> actions).

(** A button press leads from one menu to the next: [d'] is on the
    keyboard the reply of the action for [d] reaches Telegram with. *)
Definition leads (d d' : string) : Prop :=
  ∃ a, route d = Some a ∧ d' ∈ callbacks (shown a).

(** The inline keyboards of the messages the [/start] handler sends: the
    offer is given its markup as the extra, the welcome photo and the
    welcome text have theirs under [reply_markup] of the options. *)
Definition start_keyboards : list keyboard :=
  [ inline_keyboard (markup crisis_keyboard);
    inline_keyboard (options (Some welcome_keyboard));
    inline_keyboard (options (Some welcome_text_keyboard)) ].

(** What a user can press after [/start], press after press. *)
Inductive can_press : string → Prop :=
| press_first d : d ∈ callbacks (concat start_keyboards) → can_press d
| press_next d d' : can_press d → leads d d' → can_press d'.

(** [l.includes(d)] *)
Definition mem (d : string) (l : list string) : bool := existsb (String.eqb d) l.

(** Two Telegrams to try the bot on: one that accepts every call, one
    that refuses photos. *)
Definition accepting (c : call) (t : ()) : Js.completion () * () := (Js.Return (), t).
Definition refusing_photos (c : call) (t : ()) : Js.completion () * () :=
  match c with
  | replyWithPhoto _ _ _ => (Js.Throw (Js.Failure "400: Bad Request: failed to get HTTP URL content"), t)
  | _ => (Js.Return (), t)
  end.

Section Bot.

(** Telegram: [send c t] is what the Bot API answers to the call [c] in
    the state [t], acceptance or an error, and the state it is in then. *)
Context {T : Type}.
Variable send : call → T → Js.completion () * T.

(** The chat as the user sees it: the calls Telegram accepted, in order. *)
Record chat : Type := Chat { delivered : list call; telegram : T }.

(** [await ctx.<call>] *)
Definition api (c : call) : Eff.M () :=
  λ w, match send c (telegram w) with
       | (Js.Return _, t') => (Js.Return (), Chat (delivered w ++ [c]) t')
       | (Js.Throw e, t') => (Js.Throw e, Chat (delivered w) t')
       end.

Definition replies_accepted : Prop :=
  ∀ t kb τ, fst (send (reply t kb) τ) = Js.Return ().
Definition all_accepted : Prop := ∀ c τ, fst (send c τ) = Js.Return ().

(** The crisis fast-track of the [/start] handler, for the truthy
    [guide = GUIDES[payload.g]]:

    try { await ctx.replyWithPhoto(hero, { caption: `...${guide.title}...` }) }
    catch (error) { await ctx.reply(`...${guide.title}...${guide.summary}`) }
    for (const step of guide.checklist) { await ctx.reply(step) }
    await ctx.reply('**Ready to resolve this crisis?** ...',
                    Markup.inlineKeyboard([...]));
    return; *)
Definition crisis_flow (hero : string) (last : call) (guide : looked_up) : Eff.M () :=
  Eff.seq
    (Eff.try_catch
       (api (replyWithPhoto hero
               (emergency_caption (title_of guide) (summary_of guide)) []))
       (λ _, api (reply (emergency_text (title_of guide) (summary_of guide)) [])))
    (Eff.seq
       (match checklist_of guide with
        | Some steps => Eff.for_of steps (λ step, api (reply (plain step) []))
        | None => Eff.throw (Js.TypeError "guide.checklist is not iterable")
        end)
       (api last)).

Definition offer : call := reply (literal "Ready to resolve this crisis?") crisis_keyboard.

Definition crisis (guide : looked_up) : Eff.M () := crisis_flow hero_image offer guide.

(** The main welcome of the [/start] handler:

    try { await ctx.replyWithPhoto(hero, { caption, parse_mode,
            reply_markup: Markup.inlineKeyboard([...]) }) }
    catch (error) { console.log(...);
      await ctx.reply(text, { parse_mode,
            reply_markup: Markup.inlineKeyboard([...]) }) } *)
Definition welcome : Eff.M () :=
  Eff.try_catch
    (api (replyWithPhoto hero_image
            (literal "Stop Getting Rejected. Start Getting Approved.")
            (inline_keyboard (options (Some welcome_keyboard)))))
    (λ _, api (reply (literal "Welcome to MerchantGuard")
                 (inline_keyboard (options (Some welcome_text_keyboard))))).

(** [bot.start(async (ctx) => { ... })]:

    const payload = parsePayload(ctx.startPayload);
    if (payload.g && GUIDES[payload.g]) { const guide = GUIDES[payload.g]; ... return; }
    ... *)
Definition start (startPayload : Js.value) : Eff.M () :=
  let payload := Bot.parsePayload startPayload in
  match payload !! "g" with
  | Some g =>
      if negb (String.eqb g "") then
        match GUIDES_at g with
        | Some guide => crisis guide
        | None => welcome
        end
      else welcome
  | None => welcome
  end.

(** The guide a start payload names, if any: the test of the handler. *)
Definition guide_named (startPayload : Js.value) : option looked_up :=
  match Bot.parsePayload startPayload !! "g" with
  | Some g => if negb (String.eqb g "") then GUIDES_at g else None
  | None => None
  end.

(** The first message of the crisis flow: the photo, or the text sent in
    its place when Telegram refuses the photo. *)
Definition emergency_photo_of (hero : string) (guide : looked_up) : call :=
  replyWithPhoto hero (emergency_caption (title_of guide) (summary_of guide)) [].
Definition emergency_first_of (hero : string) (guide : looked_up) (t : T) : call :=
  match fst (send (emergency_photo_of hero guide) t) with
  | Js.Return _ => emergency_photo_of hero guide
  | Js.Throw _ => reply (emergency_text (title_of guide) (summary_of guide)) []
  end.
Definition emergency_photo : looked_up → call := emergency_photo_of hero_image.
Definition emergency_first : looked_up → T → call := emergency_first_of hero_image.

(** The one message of the main welcome, likewise. *)
Definition welcome_photo : call :=
  replyWithPhoto hero_image
    (literal "Stop Getting Rejected. Start Getting Approved.")
    (inline_keyboard (options (Some welcome_keyboard))).
Definition welcome_text : call :=
  reply (literal "Welcome to MerchantGuard")
    (inline_keyboard (options (Some welcome_text_keyboard))).
Definition welcome_first (t : T) : call :=
  match fst (send welcome_photo t) with
  | Js.Return _ => welcome_photo
  | Js.Throw _ => welcome_text
  end.

(** The handler of an action. *)
Definition run (a : action) (random : Q) : Eff.M () :=
  Eff.seq (api answerCbQuery) (api (reply (body a random) (shown a))).

Definition on_callback (random : Q) (data : string) : Eff.M () :=
  match route data with
  | Some a => run a random
  | None => Eff.ret ()
  end.

(** The updates Telegraf tells apart for this bot: the command [/start]
    of a user with the payload it carries, a pressed callback button, and
    anything else. *)
Inductive update : Type :=
| start_command (startPayload : Js.value)
| callback_query (data : string)
| other_update.

(** [bot.handleUpdate(update)]; [random] is what [Math.random()] returns
    should a handler call it. *)
Definition handleUpdate (random : Q) (u : update) : chat → Js.completion () * chat :=
  match u with
  | start_command startPayload => start startPayload
  | callback_query data => on_callback random data
  | other_update => Eff.ret ()
  end.

End Bot.

End Menu.

Module Samples.

(** A fresh request context for index.js over the bot of index.js: nothing
    sent or logged yet, no exit code set, an empty chat. *)
Definition fresh : Bot.world (U:=Menu.update) (B:=Menu.chat (T:=())) :=
  Bot.World [] 200 [] None "2025-01-01T00:00:00.000Z" (Menu.Chat [] ()).

(** How severe an alert of the usage guide is: none, the warning, the
    critical one. *)
Definition alert_level (alert : option string) : nat :=
  match alert with
  | None => 0
  | Some text => if String.eqb text Guide.critical_alert then 2 else 1
  end.

(** A double on which the volume handler scores [n], for [n] from 60 to
    89: the first multiple of 1/32 from [(n - 60) / 30] on. *)
Definition draw_scoring (n : Z) : Q := ((32 * (n - 60) + 29) / 30)%Z # 32.

End Samples.

Module CrisisBot.

(** The crisis bot (the copy of the bot whose webhook answers
    ['Crisis Fast-Track Bot API Ready!']): the same guides and the same
    [parsePayload], a menu of guide buttons, and one action for them. *)

Import Menu.

Definition hero_image : string := "https://merchantguard.ai/Hero-image-merchantguard.jpg".

(** The menu of the default [/start] message, as the handler writes it. *)
Definition menu_keyboard : keyboard :=
  [ callback "guide_section43"; callback "guide_highrisk"; callback "guide_match";
    url "https://t.me/guardscorebot?start=guardscore" ].

(** The last message of the crisis flow of [/start]: two deep links. *)
Definition next_step : call :=
  reply (literal "Next Step:")
    [ url "https://t.me/guardscorebot?start=pkg_auto_199";
      url "https://t.me/guardscorebot?start=guardscore" ].

(** ** The trigger [/guide_(.+)/] *)

(** Line terminators, which [.] does not match: LF and CR among the code
    units below 256. *)
Definition isLineTerminator (c : ascii) : bool :=
  existsb (Nat.eqb (nat_of_ascii c)) [10; 13]%nat.

(** The longest run of characters [.] matches at the start of [s]. *)
Fixpoint dots (s : string) : string :=
  match s with
  | EmptyString => EmptyString
  | String c s' => if isLineTerminator c then EmptyString else String c (dots s')
  end.

(** [s] without the prefix [p], when it starts with [p]. *)
Fixpoint after_prefix (p s : string) : option string :=
  match p, s with
  | EmptyString, _ => Some s
  | String a p', String c s' => if Ascii.eqb a c then after_prefix p' s' else None
  | String _ _, EmptyString => None
  end.

(** [/guide_(.+)/.exec(data)], its group 1: at the leftmost position
    where [guide_] is followed by at least one character that [.]
    matches, all the characters up to the next line terminator. *)
Fixpoint exec_guide (data : string) : option string :=
  match data with
  | EmptyString => None
  | String _ rest =>
      match after_prefix "guide_" data with
      | Some tail =>
          match dots tail with
          | EmptyString => exec_guide rest
          | group => Some group
          end
      | None => exec_guide rest
      end
  end.

Section Bot.

Context {T : Type}.
Variable send : call → T → Js.completion () * T.

(** The default menu of [/start]: the hero photo, with the menu written
    under [reply_markup] of its options, or, when the photo is refused,
    the text, whose options hold [parse_mode] alone. *)
Definition welcome_photo : call :=
  replyWithPhoto hero_image (literal "MerchantGuard Crisis Fast-Track")
    (inline_keyboard (options (Some menu_keyboard))).
Definition welcome_text : call :=
  reply (literal "MerchantGuard Crisis Fast-Track") (inline_keyboard (options None)).
Definition welcome : Eff.M () :=
  Eff.try_catch (api send welcome_photo) (λ _, api send welcome_text).

(** [bot.start]: the crisis flow for [payload.g && GUIDES[payload.g]],
    ending in the two deep links, else the default menu. *)
Definition start (startPayload : Js.value) : Eff.M () :=
  match guide_named startPayload with
  | Some guide => crisis_flow send hero_image next_step guide
  | None => welcome
  end.

(** bot.action(/guide_(.+)/, async (ctx) => {
      const guideType = ctx.match[1];
      const guide = GUIDES[guideType];
      await ctx.answerCbQuery();
      if (!guide) return;
      ... the crisis flow, ending in the offer ...
    }) *)
Definition guide_action (guideType : string) : Eff.M () :=
  Eff.seq (api send answerCbQuery)
    (match GUIDES_at guideType with
     | None => Eff.ret ()
     | Some guide => crisis_flow send hero_image offer guide
     end).

Definition buy_emergency : action :=
  {| triggers := ["buy_emergency_199"];
     body := λ _, literal "Emergency Pack Purchase";
     buttons := [url "https://merchantguard.ai/packages-simple"] |}.

Definition start_guardscore : action :=
  {| triggers := ["start_guardscore"];
     body := λ _, literal "Full Assessment";
     buttons := [url "https://merchantguard.ai/tools/guardscore-telegram"] |}.

(** The three registrations in their order: the pattern, then the two
    strings. *)
Definition on_callback (data : string) : Eff.M () :=
  match exec_guide data with
  | Some guideType => guide_action guideType
  | None =>
      if String.eqb data "buy_emergency_199" then run send buy_emergency 0
      else if String.eqb data "start_guardscore" then run send start_guardscore 0
      else Eff.ret ()
  end.

End Bot.

End CrisisBot.

(** The callback data a message offers: what a user can press on it. *)
Definition pressable (c : Menu.call) : list string :=
  match c with
  | Menu.answerCbQuery => []
  | Menu.reply _ kb | Menu.replyWithPhoto _ _ kb => Menu.callbacks kb
  end.

Module TermsBot.

(** The copy of the bot whose welcome asks to accept the terms (its
    webhook answers ['MerchantGuard Bot Ready!']): the guides,
    [parsePayload] and the crisis flow of index.js, and a menu of five
    actions. *)

Import Menu.

Definition hero_image : string :=
  "https://www.merchantguard.ai/Hero-image-merchantguard-v2.jpg".

(** The [bot.action] registrations, in their order. *)
Definition actions : list action :=
  [ {| triggers := ["accept_terms"];
       body := λ _, literal "Choose Your Assessment Path:";
       buttons := [callback "start_assessment"; callback "fast_track_199"; terms] |};
    {| triggers := ["start_assessment"];
       body := λ _, literal "Starting Full Assessment";
       buttons := [] |};
    {| triggers := ["fast_track_199"];
       body := λ _, literal "Fast Track Assessment";
       buttons := [url "https://merchantguard.ai/packages-simple"] |};
    {| triggers := ["buy_emergency_199"];
       body := λ _, literal "Emergency Pack Purchase";
       buttons := [url "https://merchantguard.ai/packages-simple"] |};
    {| triggers := ["start_guardscore"];
       body := λ _, literal "Full Assessment";
       buttons := [url "https://merchantguard.ai/tools/guardscore-telegram"] |} ].

(** The keyboard of the welcome as the handler writes it, for the photo
    and for the text alike, under [reply_markup] of the options. *)
Definition welcome_keyboard : keyboard := [callback "accept_terms"; terms; privacy].

Definition route (data : string) : option action :=
  List.find (λ a, existsb (String.eqb data) (triggers a)) actions.

Definition handled : list string := concat (triggers <$> actions).

(** The keyboards as the handlers write them, whether or not they reach
    Telegram: [d'] is on the keyboard the action for [d] writes. *)
Definition leads (d d' : string) : Prop :=
  ∃ a, route d = Some a ∧ d' ∈ callbacks (buttons a).

(** The presses the written keyboards lead to from [/start]: an upper
    bound on what a user can press. *)
Inductive reachable : string → Prop :=
| reach_start d :
    d ∈ callbacks (crisis_keyboard ++ welcome_keyboard)%list → reachable d
| reach_press d d' : reachable d → leads d d' → reachable d'.

Definition next (ds : list string) : list string :=
  concat ((λ d, match route d with
                | Some a => callbacks (buttons a)
                | None => []
                end) <$> ds).

Fixpoint within (n : nat) : list string :=
  match n with
  | O => callbacks (crisis_keyboard ++ welcome_keyboard)%list
  | S n' => list_union (remove_dups (next (within n'))) (within n')
  end.

(** Everything within one press of the first keyboards, listed. *)
Definition presses : list string := Eval vm_compute in within 1.

(** The inline keyboards of the messages the [/start] handler sends: the
    offer is given its markup as the extra, the welcome has its under
    [reply_markup] of the options. *)
Definition start_keyboards : list keyboard :=
  [ inline_keyboard (markup crisis_keyboard);
    inline_keyboard (options (Some welcome_keyboard)) ].

(** What a user can press after [/start], press after press: the
    buttons of the keyboards that reach Telegram. *)
Inductive can_press : string → Prop :=
| press_first d : d ∈ callbacks (concat start_keyboards) → can_press d
| press_next d a d' :
    can_press d → route d = Some a → d' ∈ callbacks (shown a) → can_press d'.

Section Bot.

Context {T : Type}.
Variable send : call → T → Js.completion () * T.

Definition welcome : Eff.M () :=
  Eff.try_catch
    (api send (replyWithPhoto hero_image (literal "Welcome to MerchantGuard")
                 (inline_keyboard (options (Some welcome_keyboard)))))
    (λ _, api send (reply (literal "Welcome to MerchantGuard")
                      (inline_keyboard (options (Some welcome_keyboard))))).

(** [bot.start]: the crisis flow for [payload.g && GUIDES[payload.g]],
    ending in the offer, else the welcome. *)
Definition start (startPayload : Js.value) : Eff.M () :=
  match guide_named startPayload with
  | Some guide => crisis_flow send hero_image offer guide
  | None => welcome
  end.

Definition on_callback (data : string) : Eff.M () :=
  match route data with
  | Some a => run send a 0
  | None => Eff.ret ()
  end.

End Bot.

End TermsBot.

(* ===================================================================== *)
(** * Theorems *)
(* ===================================================================== *)

Section JsStrings.

Lemma split_not_nil sep s : Js.split sep s ≠ [].
Proof. destruct s as [|c s]; simpl; [done|]. by repeat case_match. Qed.

(** [split] cuts at the separators and nowhere else: joining the pieces
    gives the string back. *)
Lemma join_split sep s : Js.join sep (Js.split sep s) = s.
Proof.
  induction s as [|c s IH]; simpl; [done|].
  destruct (Ascii.eqb_spec c sep) as [->|Hc].
  - pose proof (split_not_nil sep s).
    destruct (Js.split sep s) as [|p ps] eqn:E; [done|].
    simpl in *. by rewrite IH.
  - destruct (Js.split sep s) as [|p ps] eqn:E.
    + by destruct (split_not_nil sep s).
    + destruct ps; simpl in *; by rewrite <- IH.
Qed.

Example split_examples :
  Js.split ";" "a;b" = ["a"; "b"]
  ∧ Js.split ";" ";a;" = [""; "a"; ""]
  ∧ Js.split ":" "" = [""]
  ∧ Js.split ":" "a::c" = ["a"; ""; "c"].
Proof. by split_and!. Qed.

Example trim_examples :
  Js.trim "  g  " = "g"
  ∧ Js.trim " a b " = "a b"
  ∧ Js.trim (String (ascii_of_nat 9) (String (ascii_of_nat 160) "x")) = "x"
  ∧ Js.trim "   " = "".
Proof. by split_and!. Qed.

Lemma string_eqb_empty s : String.eqb s "" = false ↔ s ≠ "".
Proof. destruct (String.eqb_spec s ""); naive_solver. Qed.

End JsStrings.

Section ParsePayload.

Implicit Types (out : gmap string string) (part k v : string).

Lemma parsePayload_step_entry out part :
  Bot.parsePayload_step out part =
    match Bot.part_entry part with
    | Some (k, v) => Js.set out k v
    | None => out
    end.
Proof.
  unfold Bot.parsePayload_step, Bot.part_entry, Js.element.
  destruct (Js.split ":" part) as [|key [|value rest]]; simpl; try done.
  - by rewrite andb_false_r.
  - by destruct (negb (key =? "")), (negb (value =? "")).
Qed.

Lemma part_entry_defines part k v :
  Bot.part_entry part = Some (k, v) ↔ Bot.defines part k v.
Proof.
  unfold Bot.part_entry, Bot.defines. split.
  - destruct (Js.split ":" part) as [|key [|value rest]]; try done.
    destruct (String.eqb_spec key ""), (String.eqb_spec value ""); simpl; try done.
    intros [= <- <-]. by exists key, value, rest.
  - intros (key & value & rest & -> & Hk & Hv & <- & <-).
    apply string_eqb_empty in Hk, Hv. by rewrite Hk, Hv.
Qed.

Lemma defines_functional part k v k' v' :
  Bot.defines part k v → Bot.defines part k' v' → k = k' ∧ v = v'.
Proof.
  intros H H'. apply part_entry_defines in H, H'. rewrite H in H'. by injection H'.
Qed.

Lemma last_defines_snoc parts part k v :
  Bot.last_defines (parts ++ [part])%list k v ↔
    Bot.defines part k v
    ∨ ((∀ v', ¬ Bot.defines part k v') ∧ Bot.last_defines parts k v).
Proof.
  split.
  - intros (before & p & after & Heq & Hdef & Hlast).
    destruct after as [|a after _] using rev_ind.
    + apply app_inj_tail in Heq as [_ ->]. by left.
    + rewrite app_comm_cons, app_assoc in Heq.
      apply app_inj_tail in Heq as [-> ->]. right. split.
      * intros v'. apply Hlast. set_solver.
      * exists before, p, after. split_and!; [done..|].
        intros part' v' Hin. apply Hlast. set_solver.
  - intros [Hdef | [Hnone (before & p & after & -> & Hdef & Hlast)]].
    + exists parts, part, []. split_and!; [done..|]. set_solver.
    + exists before, p, (after ++ [part])%list. split_and!.
      * by rewrite <- app_assoc.
      * done.
      * intros part' v' [Hin | ->%list_elem_of_singleton]%elem_of_app; [by apply Hlast|done].
Qed.

Lemma last_defines_nil k v : ¬ Bot.last_defines [] k v.
Proof. intros (before & p & after & Heq & _). by destruct before. Qed.

Lemma parsePayload_fold parts k v :
  fold_left Bot.parsePayload_step parts ∅ !! k = Some v ↔
    k ≠ "__proto__" ∧ Bot.last_defines parts k v.
Proof.
  revert k v. induction parts as [|part parts IH] using rev_ind; intros k v.
  - simpl. rewrite lookup_empty. split; [done|]. intros [_ H]. by apply last_defines_nil in H.
  - rewrite fold_left_app. simpl. rewrite parsePayload_step_entry, last_defines_snoc.
    destruct (Bot.part_entry part) as [[k' v']|] eqn:E.
    + apply part_entry_defines in E. unfold Js.set.
      destruct (String.eqb_spec k' "__proto__") as [->|Hproto].
      * rewrite IH. split.
        -- intros [Hk Hl]. split; [done|]. right. split; [|done].
           intros v'' Hd. by destruct (defines_functional _ _ _ _ _ E Hd).
        -- intros [Hk [Hd | [_ Hl]]]; [|done].
           by destruct (defines_functional _ _ _ _ _ E Hd).
      * destruct (decide (k = k')) as [->|Hne].
        -- rewrite lookup_insert_eq. split.
           ++ intros [= <-]. split; [done|]. by left.
           ++ intros [_ [Hd | [Hnone _]]].
              ** by destruct (defines_functional _ _ _ _ _ E Hd) as [_ ->].
              ** by destruct (Hnone v').
        -- rewrite lookup_insert_ne by done. rewrite IH. split.
           ++ intros [Hk Hl]. split; [done|]. right. split; [|done].
              intros v'' Hd. by destruct (defines_functional _ _ _ _ _ E Hd).
           ++ intros [Hk [Hd | [_ Hl]]]; [|done].
              by destruct (defines_functional _ _ _ _ _ E Hd).
    + rewrite IH. split.
      * intros [Hk Hl]. split; [done|]. right. split; [|done].
        intros v' Hd%part_entry_defines. congruence.
      * intros [Hk [Hd%part_entry_defines | [_ Hl]]]; [congruence|done].
Qed.

End ParsePayload.

Example parsePayload_guide :
  Bot.parsePayload (Js.Str "g:match") = {[ "g" := "match" ]}.
Proof. reflexivity. Qed.

Example parsePayload_mixed :
  Bot.parsePayload (Js.Str " g : highrisk:x ;a:;:b;g:match; k :v")
  = {[ "g" := "match"; "k" := "v" ]}.
Proof. vm_compute. reflexivity. Qed.

(** What [parsePayload] returns, on every input: a falsy input gives the
    empty map; otherwise the map holds, for each key other than [__proto__],
    the trimmed value of the last [;]-separated part whose split on [:]
    starts with a non-empty key piece and a non-empty value piece and whose
    trimmed key it is; the key [__proto__] is never stored. *)
Lemma parsePayload_entries (input : Js.value) (k v : string) :
  Bot.parsePayload input !! k = Some v ↔
    Js.truthy input = true
    ∧ k ≠ "__proto__"
    ∧ Bot.last_defines (Js.split ";" (Js.ToString input)) k v.
Proof.
  unfold Bot.parsePayload. destruct (Js.truthy input); simpl.
  - rewrite parsePayload_fold. tauto.
  - rewrite lookup_empty. split; [done|]. by intros [? _].
Qed.

(** Away from the key [__proto__] the map is what the parts define: an
    entry for each part with a non-empty key piece and a non-empty value
    piece, both trimmed, the last part winning. *)
Lemma parsePayload_other_keys (s k v : string) :
  s ≠ "" → k ≠ "__proto__" →
  Bot.parsePayload (Js.Str s) !! k = Some v ↔ Bot.last_defines (Js.split ";" s) k v.
Proof.
  intros Hs%string_eqb_empty Hk. rewrite parsePayload_entries. simpl. rewrite Hs. simpl.
  tauto.
Qed.

(** C9, on the code: the payload [__proto__:x] has one part, whose split on
    [:] gives the non-empty pieces [__proto__] and [x]; the map returned is
    empty, no entry is added for it. *)
Theorem parsePayload_proto_key :
  Bot.last_defines (Js.split ";" "__proto__:x") "__proto__" "x"
  ∧ Bot.parsePayload (Js.Str "__proto__:x") = ∅.
Proof.
  split; [|reflexivity].
  exists [], "__proto__:x", []. split_and!; [done| |set_solver].
  by exists "__proto__", "x", [].
Qed.

Section WebhookHandler.

Context {U B : Type}.
Variable handleUpdate : U → B → Js.completion () * B.
Variables ready_message error_text : string.

(** C10: the handler ends normally on every request and sends exactly one
    response: 200 with [{ok: true}] for a POST whose update handling
    succeeds, 200 with the readiness message for any other method, 500
    with the error body when the update handling throws. *)
Theorem handler_one_response (req : Bot.request U) (w : Bot.world) :
  fst (Bot.handler handleUpdate ready_message error_text req w) = Js.Return ()
  ∧ Bot.sent (snd (Bot.handler handleUpdate ready_message error_text req w))
    = (Bot.sent w ++ [Bot.owed handleUpdate ready_message error_text req w])%list.
Proof.
  unfold Bot.handler, Bot.owed, Bot.try_catch, Bot.io_bind, Bot.bot_handleUpdate.
  destruct (String.eqb (Bot.method req) "POST"); simpl.
  - destruct (handleUpdate (Bot.update req) (Bot.bot w)) as [[[]|e] b']; simpl; done.
  - done.
Qed.

End WebhookHandler.

(** index.js on three requests, with a bot that fails on the update [false]. *)
Example index_handler_runs :
  let handleUpdate := λ (u : bool) (b : ()),
        (if u then Js.Return () else Js.Throw (Js.Failure "handler timeout"), b) in
  let w := Bot.World [] 200 [] None "2025-01-01T00:00:00.000Z" () in
  Bot.sent (snd (Bot.index_handler handleUpdate (Bot.Request "POST" true) w))
  = [Bot.Response 200 Bot.OkTrue]
  ∧ Bot.sent (snd (Bot.index_handler handleUpdate (Bot.Request "POST" false) w))
    = [Bot.Response 500 (Bot.ErrorBody "Bot error")]
  ∧ Bot.sent (snd (Bot.index_handler handleUpdate (Bot.Request "GET" true) w))
    = [Bot.Response 200 (Bot.Ready "MerchantGuard Bot Ready!" "2025-01-01T00:00:00.000Z")].
Proof. by split_and!. Qed.

Section PSPBands.

Import Engine.
Implicit Types (b : PSPShadowBand) (bands : list PSPShadowBand) (ratio : Q).

Lemma Qlt_bool_iff (x y : Q) : Qlt_bool x y = true ↔ (x < y)%Q.
Proof.
  unfold Qlt_bool. rewrite negb_true_iff, <- not_true_iff_false, Qle_bool_iff.
  split; [apply Qnot_le_lt | apply Qlt_not_le].
Qed.

Lemma Qle_bool_false (x y : Q) : Qle_bool x y = false ↔ (y < x)%Q.
Proof.
  rewrite <- not_true_iff_false, Qle_bool_iff.
  split; [apply Qnot_le_lt | apply Qlt_not_le].
Qed.

Lemma bounds_increasing_tail b bands :
  bounds_increasing (b :: bands) = true → bounds_increasing bands = true.
Proof. simpl. by intros [_ ?]%andb_true_iff. Qed.

(** In an increasing list every later band lies above the first. *)
Lemma bounds_increasing_head b bands b' :
  bounds_increasing (b :: bands) = true → b' ∈ bands →
  (lower_bound_fraction b < lower_bound_fraction b')%Q.
Proof.
  revert b. induction bands as [|c bands IH]; intros b Hinc Hin.
  - by apply elem_of_nil in Hin.
  - simpl in Hinc. apply andb_true_iff in Hinc as [Hbc Hrest].
    apply Qlt_bool_iff in Hbc.
    apply elem_of_cons in Hin as [->|Hin]; [done|].
    specialize (IH c Hrest Hin). lra.
Qed.

Lemma lookupPSPBand_found bands ratio :
  bounds_increasing bands = true →
  match lookupPSPBand bands ratio with
  | Some b =>
      b ∈ bands
      ∧ (lower_bound_fraction b <= ratio)%Q
      ∧ ∀ b', b' ∈ bands → (lower_bound_fraction b' <= ratio)%Q →
              (lower_bound_fraction b' <= lower_bound_fraction b)%Q
  | None => ∀ b', b' ∈ bands → (ratio < lower_bound_fraction b')%Q
  end.
Proof.
  induction bands as [|b bands IH]; intros Hinc; simpl.
  - intros b' Hin. by apply elem_of_nil in Hin.
  - specialize (IH (bounds_increasing_tail _ _ Hinc)).
    destruct (Qle_bool (lower_bound_fraction b) ratio) eqn:Hb.
    + apply Qle_bool_iff in Hb.
      destruct (lookupPSPBand bands ratio) as [h|].
      * destruct IH as (Hin & Hle & Hmax). split_and!; [by right|done|].
        intros b' [->|Hin']%elem_of_cons Hb'; [|by apply Hmax].
        pose proof (bounds_increasing_head _ _ _ Hinc Hin). lra.
      * split_and!; [by left|done|].
        intros b' [->|Hin']%elem_of_cons Hb'; [lra|].
        specialize (IH b' Hin'). lra.
    + apply Qle_bool_false in Hb.
      intros b' [->|Hin']%elem_of_cons; [done|].
      pose proof (bounds_increasing_head _ _ _ Hinc Hin'). lra.
Qed.

Lemma lookupPSPBand_none bands ratio :
  lookupPSPBand bands ratio = None ↔
    match bands with
    | [] => True
    | lowest :: _ => (ratio < lower_bound_fraction lowest)%Q
    end.
Proof.
  destruct bands as [|b bands]; simpl; [done|].
  destruct (Qle_bool (lower_bound_fraction b) ratio) eqn:Hb.
  - apply Qle_bool_iff in Hb. split; [by case_match|]. lra.
  - apply Qle_bool_false in Hb. done.
Qed.

(** C2: on an ordered band list the lookup returns the highest band whose
    lower bound is at most the ratio, and none exactly when the ratio is
    below the lower bound of the lowest band. *)
Theorem lookupPSPBand_highest bands ratio :
  bounds_increasing bands = true →
  match lookupPSPBand bands ratio with
  | Some b =>
      b ∈ bands
      ∧ (lower_bound_fraction b <= ratio)%Q
      ∧ ∀ b', b' ∈ bands → (lower_bound_fraction b' <= ratio)%Q →
              (lower_bound_fraction b' <= lower_bound_fraction b)%Q
  | None => ∀ b', b' ∈ bands → (ratio < lower_bound_fraction b')%Q
  end
  ∧ (lookupPSPBand bands ratio = None ↔
       match bands with
       | [] => True
       | lowest :: _ => (ratio < lower_bound_fraction lowest)%Q
       end).
Proof.
  intros Hinc. split; [by apply lookupPSPBand_found | apply lookupPSPBand_none].
Qed.

(** The alert code of the usage guide is this lookup on its two bands. *)
Lemma alert_lookup ratio :
  Guide.alert ratio = label <$> lookupPSPBand Guide.alert_bands ratio.
Proof.
  unfold Guide.alert, Guide.alert_bands. simpl.
  destruct (Qle_bool 0.9 ratio) eqn:H9, (Qle_bool 0.7 ratio) eqn:H7; try done.
  apply Qle_bool_iff in H9. apply Qle_bool_false in H7. lra.
Qed.

End PSPBands.

Lemma lookupPSPBand_highest_witness :
  Engine.bounds_increasing (Engine.psp_internal_thresholds "" "") = true
  ∧ (Engine.lookupPSPBand (Engine.psp_internal_thresholds "" "") 0.0065 = None ↔
       (0.0065 < Engine.lower_bound_fraction Engine.band_03)%Q).
Proof.
  split; [reflexivity|].
  apply (lookupPSPBand_highest (Engine.psp_internal_thresholds "" "") 0.0065).
  reflexivity.
Defined.

Section TierClassification.

Import Engine.

Lemma regulatoryTier_at_current regime :
  (1 <= rank (regulatoryTier regime (current_threshold regime)))%nat.
Proof.
  unfold regulatoryTier.
  destruct (Qlt_bool (current_threshold regime) (current_threshold regime)) eqn:H.
  - apply Qlt_bool_iff in H. lra.
  - destruct (Qlt_bool _ (next_boundary regime)); simpl; lia.
Qed.

Lemma regulatoryTier_at_next regime :
  (current_threshold regime <= next_boundary regime)%Q →
  regulatoryTier regime (next_boundary regime) = red.
Proof.
  intros Hle. unfold regulatoryTier.
  destruct (Qlt_bool (next_boundary regime) (current_threshold regime)) eqn:H.
  - apply Qlt_bool_iff in H. lra.
  - destruct (Qlt_bool (next_boundary regime) (next_boundary regime)) eqn:H'; [|done].
    apply Qlt_bool_iff in H'. lra.
Qed.

Lemma terminal_at_top bands top :
  last bands = Some top → terminal bands (lower_bound_fraction top) = true.
Proof. unfold terminal. intros ->. apply Qle_bool_iff. lra. Qed.

(** C1: thresholds are inclusive floors.  A ratio equal to the current
    threshold is classified watch or stricter, never green; a ratio equal
    to the next boundary red or stricter; a ratio equal to the bound of
    the highest shadow band critical.  For region US, metric VAMP, a
    ratio of 0.0065 and no exemption the tier is watch, and the band
    attached is the 0.3% band, with the label "reserves likely". *)
Theorem tier_inclusive_floors :
  (∀ regime bands,
     (rank watch <= rank (tier (evaluate regime bands (current_threshold regime))))%nat)
  ∧ (∀ regime bands,
       (current_threshold regime <= next_boundary regime)%Q →
       (rank red <= rank (tier (evaluate regime bands (next_boundary regime))))%nat)
  ∧ (∀ regime bands top,
       last bands = Some top →
       tier (evaluate regime bands (lower_bound_fraction top)) = critical)
  ∧ tier (evaluate us_vamp shadow_bands 0.0065) = watch
  ∧ psp_risk_band (evaluate us_vamp shadow_bands 0.0065) = Some band_03
  ∧ psp_risk_label (evaluate us_vamp shadow_bands 0.0065) = Some "reserves likely".
Proof.
  split_and!.
  - intros regime bands. simpl. destruct (terminal _ _); simpl; [lia|].
    apply regulatoryTier_at_current.
  - intros regime bands Hle. simpl. destruct (terminal _ _); simpl; [lia|].
    by rewrite regulatoryTier_at_next.
  - intros regime bands top Htop. simpl. by rewrite terminal_at_top.
  - reflexivity.
  - reflexivity.
  - reflexivity.
Qed.

(** On an ordered list the lookup of a ratio at or above the bound of the
    last band returns the last band. *)
Lemma lookupPSPBand_last bands top ratio :
  bounds_increasing bands = true → last bands = Some top →
  (lower_bound_fraction top <= ratio)%Q →
  lookupPSPBand bands ratio = Some top ∧ top ∈ bands.
Proof.
  induction bands as [|b rest IH]; intros Hinc Hlast Hle; [done|].
  destruct rest as [|b' rest].
  - injection Hlast as <-. simpl. apply Qle_bool_iff in Hle. rewrite Hle.
    split; [done|by left].
  - destruct (IH (bounds_increasing_tail _ _ Hinc) Hlast Hle) as [Hrest Hin].
    pose proof (bounds_increasing_head _ _ _ Hinc Hin) as Hb.
    split; [|by right].
    change (lookupPSPBand (b :: b' :: rest) ratio)
      with (if Qle_bool (lower_bound_fraction b) ratio
            then match lookupPSPBand (b' :: rest) ratio with
                 | Some higher => Some higher
                 | None => Some b
                 end
            else None).
    rewrite Hrest.
    assert (Qle_bool (lower_bound_fraction b) ratio = true) as ->; [|done].
    apply Qle_bool_iff. lra.
Qed.

End TierClassification.

Section Alerts.

(** The alert code compares the ratio in percent.  For every ratio of at
    least 0.9 (0.9%) the alert is the critical one of PSP termination;
    from 0.7 up to 0.9 it is the warning; below 0.7 there is none. *)
Lemma alert_levels (disputeRatio : Q) :
  ((0.9 <= disputeRatio)%Q → Guide.alert disputeRatio = Some Guide.critical_alert)
  ∧ ((0.7 <= disputeRatio < 0.9)%Q →
     Guide.alert disputeRatio = Some Guide.warning_alert)
  ∧ ((disputeRatio < 0.7)%Q → Guide.alert disputeRatio = None).
Proof.
  unfold Guide.alert.
  destruct (Qle_bool 0.9 disputeRatio) eqn:H9, (Qle_bool 0.7 disputeRatio) eqn:H7;
    rewrite ?Qle_bool_iff, ?Qle_bool_false in *; split_and!; intros; try done; lra.
Qed.

Import Engine.

(** C3: at a dispute ratio of 0.009 the terminal band is attached, with
    its label "termination likely", and the tier is critical under every
    regime, one under which the regulatory thresholds alone give red
    included.  This holds on every ordered band list whose highest band
    is the terminal one, at 0.9% or below: the two bands of the
    specification, and the four bounds of the usage guide.  The alert
    code of the guide, whose unit is percent, agrees: from 0.9% on it
    gives the critical alert of PSP termination. *)
Theorem terminal_band_escalates regime bands top :
  bounds_increasing bands = true →
  last bands = Some top →
  (lower_bound_fraction top <= 0.009)%Q →
  label top = "termination likely" →
  tier (evaluate regime bands 0.009) = critical
  ∧ psp_risk_label (evaluate regime bands 0.009) = Some "termination likely"
  ∧ (∀ fraction, (0.009 <= fraction)%Q →
                 Guide.alert (Guide.percent fraction) = Some Guide.critical_alert).
Proof.
  intros Hinc Hlast Hle Hlabel. split_and!.
  - simpl. unfold terminal. rewrite Hlast.
    apply Qle_bool_iff in Hle. by rewrite Hle.
  - unfold psp_risk_label. simpl.
    destruct (lookupPSPBand_last bands top 0.009 Hinc Hlast Hle) as [-> _].
    simpl. by rewrite Hlabel.
  - intros fraction Hf. apply alert_levels. unfold Guide.percent. lra.
Qed.

End Alerts.

Lemma terminal_band_escalates_witness :
  Engine.regulatoryTier Engine.pix_med 0.009 = Engine.red
  ∧ Engine.tier (Engine.evaluate Engine.pix_med Engine.shadow_bands 0.009) = Engine.critical
  ∧ Engine.psp_risk_label (Engine.evaluate Engine.pix_med Engine.shadow_bands 0.009)
    = Some "termination likely"
  ∧ Guide.alert (Guide.percent 0.009) = Some Guide.critical_alert.
Proof.
  split; [reflexivity|].
  destruct (terminal_band_escalates Engine.pix_med Engine.shadow_bands Engine.band_09)
    as (Htier & Hlabel & Halert).
  - reflexivity.
  - reflexivity.
  - vm_compute. discriminate.
  - reflexivity.
  - split_and!; [exact Htier|exact Hlabel|].
    apply Halert. vm_compute. discriminate.
Defined.

Section Calculator.

Import Guide.
Context {Risk : Type}.
Variable getPSPRiskLevel : Q → list Engine.PSPShadowBand → Risk.

Lemma isDomesticExempt_listed e userCountry :
  isDomesticExempt e userCountry = true ↔
    userCountry ∈ country_code <$> domestic_only e.
Proof.
  unfold isDomesticExempt. rewrite existsb_exists, list_elem_of_fmap.
  split.
  - intros (x & Hin%list_elem_of_In & Heq%String.eqb_eq). by exists x.
  - intros (x & -> & Hin%list_elem_of_In). exists x. by rewrite String.eqb_refl.
Qed.

Lemma regionThreshold_row t userRegion row :
  regions t !! userRegion = Some row →
  regionThreshold t userRegion = Js.Return (Num (current_threshold row)).
Proof. unfold regionThreshold. by intros ->. Qed.

Lemma regionThreshold_missing t userRegion :
  regions t !! userRegion = None → Js.inherited userRegion = false →
  regionThreshold t userRegion = Js.Throw (Js.TypeError type_error_message).
Proof. unfold regionThreshold. by intros -> ->. Qed.

(** C4, as amended: for every country listed under [domestic_only] the
    exemption flag is true whatever the dispute ratio (the transaction mix
    is not consulted); nothing is short-circuited: the regional threshold
    of the region's row is read all the same, and the PSP risk level is
    computed as well. *)
Theorem calculator_exempt_country t e userCountry userRegion disputeRatio row :
  userCountry ∈ country_code <$> domestic_only e →
  regions t !! userRegion = Some row →
  calculator getPSPRiskLevel t e userCountry userRegion disputeRatio
  = Js.Return {| calc_isDomesticExempt := true;
                 calc_regionThreshold := Num (current_threshold row);
                 calc_pspRisk := getPSPRiskLevel disputeRatio
                                   (psp_internal_thresholds t) |}.
Proof.
  intros Hexempt%isDomesticExempt_listed Hrow. unfold calculator.
  by rewrite Hexempt, (regionThreshold_row _ _ _ Hrow).
Qed.

(** C5, on the code: for a region that has no row the read of the
    regional threshold throws a [TypeError]; for a name inherited from
    [Object.prototype] it yields [undefined] without any error; it
    substitutes no default threshold: a number comes back only as the
    [current_threshold] of the region's own row. *)
Theorem regionThreshold_unknown t userRegion :
  regions t !! userRegion = None →
  regionThreshold t userRegion
  = if Js.inherited userRegion then Js.Return NoNumber
    else Js.Throw (Js.TypeError type_error_message).
Proof. unfold regionThreshold. by intros ->. Qed.

(** No default threshold: a number is the one of the region's own row. *)
Lemma regionThreshold_number t userRegion q :
  regionThreshold t userRegion = Js.Return (Num q) →
  ∃ row, regions t !! userRegion = Some row ∧ current_threshold row = q.
Proof.
  unfold regionThreshold.
  destruct (regions t !! userRegion) as [row|]; [|by destruct (Js.inherited _)].
  intros [= <-]. by exists row.
Qed.

(** C6, as amended: for every currency without an entry in the rate table
    the local penalty does not fail: it is the USD base amount, taken as it
    is, with no rate applied; the read never raises, so it cannot abort
    anything, and the penalty is never marked unavailable. *)
Theorem localPenalty_fallback t userCurrency :
  (approximate_rates (currency_conversions t) !! userCurrency = None →
   localPenalty t userCurrency = Js.Return (usd_base (currency_conversions t)))
  ∧ ∃ penalty, localPenalty t userCurrency = Js.Return penalty.
Proof.
  unfold localPenalty. split.
  - by intros ->.
  - destruct (_ !! userCurrency) as [entry|]; [|by eexists].
    destruct (Qeq_bool _ _); by eexists.
Qed.

End Calculator.

Lemma calculator_exempt_country_witness :
  Guide.calculator (λ ratio bands, Engine.lookupPSPBand bands ratio)
    Guide.sample_thresholds Guide.sample_exemptions "BR" "US" 0.02
  = Js.Return {| Guide.calc_isDomesticExempt := true;
                 Guide.calc_regionThreshold := Guide.Num 0.0065;
                 Guide.calc_pspRisk := Some Engine.band_09 |}.
Proof.
  refine (calculator_exempt_country (λ ratio bands, Engine.lookupPSPBand bands ratio)
            Guide.sample_thresholds Guide.sample_exemptions "BR" "US" 0.02
            {| Guide.current_threshold := 0.0065; Guide.future_threshold := 0.01 |} _ _).
  - vm_compute. by left.
  - reflexivity.
Defined.

(** C4, as stated, fails: for an exempt country the calculation is not
    settled before the regime is resolved: on two configurations that
    differ in the row of the region only, its outcomes differ. *)
Lemma calculator_exempt_not_short_circuited :
  Guide.isDomesticExempt Guide.sample_exemptions "BR" = true
  ∧ Guide.calculator (λ ratio bands, Engine.lookupPSPBand bands ratio)
      Guide.sample_thresholds Guide.sample_exemptions "BR" "US" 0.02
    ≠ Guide.calculator (λ ratio bands, Engine.lookupPSPBand bands ratio)
        Guide.sample_thresholds_other_row Guide.sample_exemptions "BR" "US" 0.02.
Proof. split; [reflexivity|]. vm_compute. discriminate. Qed.

Lemma regionThreshold_unknown_witness :
  Guide.regionThreshold Guide.sample_thresholds "LATAM"
  = Js.Throw (Js.TypeError Guide.type_error_message).
Proof.
  apply (regionThreshold_unknown Guide.sample_thresholds "LATAM"). reflexivity.
Defined.

(** An unknown region does not come back as a reported result. *)
Lemma regionThreshold_throws :
  ¬ ∃ result, Guide.regionThreshold Guide.sample_thresholds "LATAM" = Js.Return result.
Proof. intros [result H]. discriminate H. Qed.

(** A region named like an inherited property yields [undefined], with no
    error of any kind. *)
Lemma regionThreshold_inherited_silent :
  Guide.regionThreshold Guide.sample_thresholds "constructor" = Js.Return Guide.NoNumber.
Proof. reflexivity. Qed.

Lemma localPenalty_fallback_witness :
  Guide.localPenalty Guide.sample_thresholds "JPY" = Js.Return 8%Q.
Proof.
  apply (proj1 (localPenalty_fallback Guide.sample_thresholds "JPY")). reflexivity.
Defined.

(** C6, as stated, fails: for a currency that is not in the rate table the
    penalty read does not fail, it returns the USD base amount. *)
Lemma localPenalty_does_not_fail :
  Guide.approximate_rates (Guide.currency_conversions Guide.sample_thresholds) !! "JPY" = None
  ∧ ¬ ∃ e, Guide.localPenalty Guide.sample_thresholds "JPY" = Js.Throw e.
Proof. split; [reflexivity|]. intros [e H]. discriminate H. Qed.

Section ConfigLoad.

Import Guide.
Context {R : Type}.
Variable fetch : string → Js.completion R.
Variable json_thresholds : R → Js.completion thresholds_doc.
Variable json_exemptions : R → Js.completion exemptions_doc.

Lemma promise_all2_rejected {A C} left_first (p : Js.completion A)
    (q : Js.completion C) ex :
  promise_all2 left_first p q = Js.Throw ex → p = Js.Throw ex ∨ q = Js.Throw ex.
Proof.
  destruct p as [a|e], q as [c|e']; simpl; intros [= <-]; auto.
  destruct left_first; auto.
Qed.

(** C7, as amended: the configuration load validates nothing.  Whatever
    two documents the fetches deliver and the parser accepts are bound as
    they are, with no condition on their thresholds, bounds, rates or
    dates; the load fails only when a fetch or a parse fails, and then
    binds neither document. *)
Theorem load_binds_unvalidated left_first :
  (∀ r_t r_e t e,
     fetch "/config/thresholds.json" = Js.Return r_t → json_thresholds r_t = Js.Return t →
     fetch "/config/exemptions.json" = Js.Return r_e → json_exemptions r_e = Js.Return e →
     load fetch json_thresholds json_exemptions left_first = Js.Return (t, e))
  ∧ (∀ ex,
       load fetch json_thresholds json_exemptions left_first = Js.Throw ex →
       and_then (fetch "/config/thresholds.json") json_thresholds = Js.Throw ex
       ∨ and_then (fetch "/config/exemptions.json") json_exemptions = Js.Throw ex).
Proof.
  unfold load. split.
  - intros r_t r_e t e -> Ht -> He. simpl. by rewrite Ht, He.
  - intros ex. apply promise_all2_rejected.
Qed.

End ConfigLoad.

Lemma load_binds_unvalidated_witness :
  Guide.load
    (λ url, Js.Return url)
    (λ _, Js.Return Guide.sample_thresholds)
    (λ _, Js.Return Guide.sample_exemptions) true
  = Js.Return (Guide.sample_thresholds, Guide.sample_exemptions).
Proof.
  apply (proj1 (load_binds_unvalidated
                  (λ url, Js.Return url)
                  (λ _, Js.Return Guide.sample_thresholds)
                  (λ _, Js.Return Guide.sample_exemptions) true)
           "/config/thresholds.json" "/config/exemptions.json"); reflexivity.
Defined.

(** C7, as stated, fails: a table set with a future threshold below the
    current one, decreasing band bounds, a negative rate and an exemption
    that ends before it starts is loaded like any other. *)
Lemma load_accepts_defective_tables :
  Guide.spec_valid Guide.defective_thresholds Guide.defective_exemptions = false
  ∧ Guide.load
      (λ url, Js.Return url)
      (λ _, Js.Return Guide.defective_thresholds)
      (λ _, Js.Return Guide.defective_exemptions) true
    = Js.Return (Guide.defective_thresholds, Guide.defective_exemptions).
Proof. split; [vm_compute|]; reflexivity. Qed.

Section Doubles.

Local Open Scope Q_scope.

Lemma pow2_pos (e : Z) : 0 < 2 ^ e.
Proof. by apply Qpower_0_lt. Qed.

Lemma pow2_succ (e : Z) : 2 ^ (e + 1) == 2 * 2 ^ e.
Proof. rewrite Qpower_plus by done. change (2 ^ 1) with 2. ring. Qed.

Lemma pow2_Z (n : Z) : (0 <= n)%Z → inject_Z (2 ^ n) == 2 ^ n.
Proof. intros Hn. by rewrite Zpower_Qpower. Qed.

(** [floor_log2 x] is the exponent of the power of two at or below [x]. *)
Lemma floor_log2_spec (x : Q) :
  0 < x → 2 ^ Js.floor_log2 x <= x ∧ x < 2 ^ (Js.floor_log2 x + 1).
Proof.
  intros Hx. destruct x as [a b].
  assert (0 < a)%Z as Ha by (unfold Qlt in Hx; simpl in Hx; lia).
  pose proof (Z.log2_spec a Ha) as [Ha1 Ha2].
  pose proof (Z.log2_spec (Zpos b) eq_refl) as [Hb1 Hb2].
  pose proof (Z.log2_nonneg a) as Hla. pose proof (Z.log2_nonneg (Zpos b)) as Hlb.
  rewrite <- Z.add_1_r in Ha2, Hb2.
  rewrite Zle_Qle in Ha1. rewrite Zle_Qle in Hb1.
  rewrite Zlt_Qlt in Ha2. rewrite Zlt_Qlt in Hb2.
  rewrite pow2_Z in Ha1 by lia. rewrite pow2_Z in Hb1 by lia.
  rewrite pow2_Z, pow2_succ in Ha2 by lia. rewrite pow2_Z, pow2_succ in Hb2 by lia.
  pose proof (pow2_pos (Z.log2 a)) as Hpa. pose proof (pow2_pos (Z.log2 (Zpos b))) as Hpb.
  assert (2 ^ (Z.log2 a - Z.log2 (Zpos b)) == 2 ^ Z.log2 a / 2 ^ Z.log2 (Zpos b)) as He0
    by (by apply Qpower_minus).
  assert (0 < inject_Z (Zpos b)) as HB by (unfold Qlt; simpl; lia).
  assert (a # b == inject_Z a / inject_Z (Zpos b)) as Hx' by apply Qmake_Qdiv.
  unfold Js.floor_log2. cbn [Qnum Qden].
  set (e0 := (Z.log2 a - Z.log2 (Zpos b))%Z) in *.
  assert (2 ^ (e0 - 1 + 1) == 2 ^ e0) as Hsame by (by replace (e0 - 1 + 1)%Z with e0 by lia).
  pose proof (pow2_succ (e0 - 1)) as Hpred. rewrite Hsame in Hpred.
  pose proof (pow2_succ e0) as Hsucc.
  pose proof (pow2_pos e0) as Hpe.
  assert (2 ^ e0 * 2 ^ Z.log2 (Zpos b) == 2 ^ Z.log2 a) as Hmul by (rewrite He0; field; lra).
  assert ((a # b) * inject_Z (Zpos b) == inject_Z a) as Hxb by (rewrite Hx'; field; lra).
  clear He0 Hx'.
  destruct (Qle_bool (2 ^ e0) (a # b)) eqn:Htest.
  - apply Qle_bool_iff in Htest. split; [done|]. rewrite Hsucc.
    remember (2 ^ e0) as P0 eqn:E4.
    remember (2 ^ Z.log2 a) as PA eqn:E5. remember (2 ^ Z.log2 (Zpos b)) as PB eqn:E6.
    remember (inject_Z a) as A eqn:E7. remember (inject_Z (Zpos b)) as B eqn:E8.
    remember (a # b) as x eqn:E9. clear E4 E5 E6 E7 E8 E9. nra.
  - assert (a # b < 2 ^ e0) as Hlt.
    { apply Qnot_le_lt. intros Hle%Qle_bool_iff. congruence. }
    rewrite Hsame. split; [|done].
    remember (2 ^ (e0 - 1)) as P1 eqn:E3. remember (2 ^ e0) as P0 eqn:E4.
    remember (2 ^ Z.log2 a) as PA eqn:E5. remember (2 ^ Z.log2 (Zpos b)) as PB eqn:E6.
    remember (inject_Z a) as A eqn:E7. remember (inject_Z (Zpos b)) as B eqn:E8.
    remember (a # b) as x eqn:E9. clear E3 E4 E5 E6 E7 E8 E9. nra.
Qed.

Lemma Qabs_nonneg (x : Q) : 0 <= x → Qabs x = x.
Proof.
  destruct x as [a b]. unfold Qle. simpl. intros Ha.
  f_equal. apply Z.abs_eq. lia.
Qed.

(** Rounding to the nearest integer moves a number by at most a half. *)
Lemma nearest_even_bounds (q : Q) :
  q - (1 # 2) <= inject_Z (Js.nearest_even q) ∧ inject_Z (Js.nearest_even q) <= q + (1 # 2).
Proof.
  unfold Js.nearest_even.
  pose proof (Qfloor_le q) as Hlo. pose proof (Qlt_floor q) as Hhi.
  rewrite inject_Z_plus in Hhi. change (inject_Z 1) with 1 in Hhi.
  destruct (Qcompare_spec (q - inject_Z (Qfloor q)) (1 # 2)) as [Heq|Hlt|Hgt].
  - destruct (Z.even _); rewrite ?inject_Z_plus; change (inject_Z 1) with 1; lra.
  - lra.
  - rewrite inject_Z_plus. change (inject_Z 1) with 1. lra.
Qed.

Lemma nearest_even_nonneg (q : Q) : 0 <= q → (0 <= Js.nearest_even q)%Z.
Proof.
  intros Hq. pose proof (nearest_even_bounds q) as [Hlo _].
  assert (inject_Z (-1) < inject_Z (Js.nearest_even q)) as H.
  { change (inject_Z (-1)) with (-1). lra. }
  rewrite <- Zlt_Qlt in H. lia.
Qed.

(** Rounding to a double moves a number by at most half a unit in the
    last place. *)
Lemma to_double_bounds (x : Q) :
  x - (1 # 2) * 2 ^ Js.ulp_exponent x <= Js.to_double x
  ∧ Js.to_double x <= x + (1 # 2) * 2 ^ Js.ulp_exponent x.
Proof.
  unfold Js.to_double. pose proof (pow2_pos (Js.ulp_exponent x)) as Hp.
  pose proof (nearest_even_bounds (x / 2 ^ Js.ulp_exponent x)) as [Hlo Hhi].
  assert (x / 2 ^ Js.ulp_exponent x * 2 ^ Js.ulp_exponent x == x) as Hq by (field; lra).
  remember (2 ^ Js.ulp_exponent x) as p eqn:Ep. clear Ep.
  remember (x / p) as q eqn:Eq. clear Eq.
  remember (inject_Z (Js.nearest_even q)) as n eqn:En. clear En.
  assert (0 <= (n - (q - (1 # 2))) * p) as H1 by (apply Qmult_le_0_compat; lra).
  assert (0 <= (q + (1 # 2) - n) * p) as H2 by (apply Qmult_le_0_compat; lra).
  split; lra.
Qed.

Lemma to_double_nonneg (x : Q) : 0 <= x → 0 <= Js.to_double x.
Proof.
  intros Hx. unfold Js.to_double. pose proof (pow2_pos (Js.ulp_exponent x)) as Hp.
  apply Qmult_le_0_compat; [|lra].
  change 0 with (inject_Z 0). rewrite <- Zle_Qle. apply nearest_even_nonneg.
  apply Qle_shift_div_l; [done|]. lra.
Qed.

Lemma floor_log2_lt (x : Q) (k : Z) : 0 < x → x < 2 ^ k → (Js.floor_log2 x < k)%Z.
Proof.
  intros Hx Hk. destruct (floor_log2_spec x Hx) as [Hlo _].
  apply (Qpower_lt_compat_l_inv 2); [|done]. lra.
Qed.

Lemma ulp_exponent_le (x : Q) (k : Z) :
  0 < x → x < 2 ^ k → (-1074 <= k - 53)%Z → (Js.ulp_exponent x <= k - 53)%Z.
Proof.
  intros Hx Hk Hmin. unfold Js.ulp_exponent. rewrite Qabs_nonneg by lra.
  pose proof (floor_log2_lt x k Hx Hk). lia.
Qed.

(** A double below 1 is at most [1 - 2^-53]. *)
Lemma double_below_one (d : Q) :
  Js.is_double d = true → 0 <= d → d < 1 → d <= 1 - (1 # 2 ^ 53).
Proof.
  intros Hd%Qeq_bool_iff H0 H1.
  change (2 ^ 53)%positive with 9007199254740992%positive.
  destruct (Qlt_le_dec 0 d) as [Hpos|Hle]; [|lra].
  destruct (floor_log2_spec d Hpos) as [Hlo Hhi].
  pose proof (floor_log2_lt d 0 Hpos H1) as He.
  destruct (Z.eq_dec (Js.floor_log2 d) (-1)%Z) as [Heq|Hne].
  - unfold Js.to_double, Js.ulp_exponent in Hd. rewrite Qabs_nonneg, Heq in Hd by lra.
    change (Z.max (-1074) (-1 - 52))%Z with (-53)%Z in Hd.
    change (2 ^ (-53)) with (1 # 9007199254740992) in Hd.
    set (n := Js.nearest_even _) in Hd.
    assert (inject_Z n < inject_Z (2 ^ 53)) as Hn.
    { change (inject_Z (2 ^ 53)) with (9007199254740992 # 1). lra. }
    rewrite <- Zlt_Qlt in Hn.
    assert (inject_Z n <= inject_Z (2 ^ 53 - 1)) as Hn' by (rewrite <- Zle_Qle; lia).
    change (inject_Z (2 ^ 53 - 1)) with (9007199254740991 # 1) in Hn'. lra.
  - assert (2 ^ (Js.floor_log2 d + 1) <= 2 ^ (-1)) as Hhalf
      by (apply Qpower_le_compat_l; [lia|lra]).
    change (2 ^ (-1)) with (1 # 2) in Hhalf. lra.
Qed.

(** The product of a double below 1 and 30, rounded, stays below 30. *)
Lemma times_30_below (d : Q) :
  Js.is_double d = true → 0 <= d → d < 1 →
  0 <= Js.times d 30 ∧ Js.times d 30 < 30.
Proof.
  intros Hd H0 H1. pose proof (double_below_one d Hd H0 H1) as Hmax.
  change (2 ^ 53)%positive with 9007199254740992%positive in Hmax.
  unfold Js.times. split; [apply to_double_nonneg; lra|].
  destruct (Qlt_le_dec 0 (d * 30)) as [Hpos|Hle].
  - pose proof (to_double_bounds (d * 30)) as [_ Hhi].
    assert (Js.ulp_exponent (d * 30) <= 5 - 53)%Z as Hulp.
    { apply ulp_exponent_le; [done| |lia]. change (2 ^ 5) with 32. lra. }
    assert (2 ^ Js.ulp_exponent (d * 30) <= 2 ^ (5 - 53)) as Hp
      by (apply Qpower_le_compat_l; [done|lra]).
    change (2 ^ (5 - 53)) with (1 # 281474976710656) in Hp. lra.
  - pose proof (to_double_bounds (d * 30)) as [Hlo Hhi].
    pose proof (nearest_even_bounds (d * 30 / 2 ^ Js.ulp_exponent (d * 30))) as [Hn1 Hn2].
    pose proof (pow2_pos (Js.ulp_exponent (d * 30))) as Hp.
    assert (d * 30 / 2 ^ Js.ulp_exponent (d * 30) == 0) as Hq.
    { unfold Qdiv. remember (/ 2 ^ Js.ulp_exponent (d * 30)) as ip eqn:E. clear E.
      assert (d * 30 == 0) as Hz by lra. rewrite Hz. ring. }
    assert (Js.nearest_even (d * 30 / 2 ^ Js.ulp_exponent (d * 30)) = 0%Z) as Hn.
    { assert (inject_Z (-1) < inject_Z (Js.nearest_even (d * 30 / 2 ^ Js.ulp_exponent (d * 30)))
              ∧ inject_Z (Js.nearest_even (d * 30 / 2 ^ Js.ulp_exponent (d * 30))) < inject_Z 1)
        as [Ha Hb].
      { change (inject_Z (-1)) with (-1). change (inject_Z 1) with 1.
        remember (inject_Z (Js.nearest_even _)) as n eqn:En. clear En. lra. }
      rewrite <- Zlt_Qlt in Ha. rewrite <- Zlt_Qlt in Hb. lia. }
    unfold Js.to_double. rewrite Hn. change (inject_Z 0) with 0. lra.
Qed.

End Doubles.

Section VolumeScore.

(** For a double in [0, 1) the score lies in 60..89. *)
Lemma volume_score_range (action : string) (random : Q) :
  Js.is_double random = true → (0 <= random < 1)%Q →
  (60 <= Bot.score action random <= 89)%Z.
Proof.
  intros Hd [H0 H1]. unfold Bot.score.
  destruct (times_30_below random Hd H0 H1) as [Hlo Hhi].
  assert (0 <= Qfloor (Js.times random 30) < 30)%Z as [??]; [|lia]. split.
  - change 0%Z with (Qfloor 0). by apply Qfloor_resp_le.
  - rewrite Zlt_Qlt. eapply Qle_lt_trans; [apply Qfloor_le|]. done.
Qed.

(** C8, on the code: the score replied to a volume action is not a
    function of the action: the same action scores 60 on the draw 0 and
    75 on the draw 0.5. *)
Theorem volume_score_depends_on_draw (action : string) :
  Bot.score action 0 = 60%Z
  ∧ Bot.score action 0.5 = 75%Z
  ∧ Bot.score action 0 ≠ Bot.score action 0.5.
Proof. split_and!; [reflexivity..|discriminate]. Qed.

End VolumeScore.

Section PayloadShape.

Implicit Types (s p k v : string) (c sep : ascii).

Lemma includes_app c s p :
  Payload.includes c (append s p) = Payload.includes c s || Payload.includes c p.
Proof. induction s as [|a s IH]; simpl; [done|]. by rewrite IH, orb_assoc. Qed.

(** A string without the separator is its own single piece. *)
Lemma split_without sep s : Payload.includes sep s = false → Js.split sep s = [s].
Proof.
  induction s as [|a s IH]; simpl; [done|].
  intros [Ha Hs]%orb_false_iff. rewrite Ha, (IH Hs). done.
Qed.

(** The pieces hold no character the string does not hold. *)
Lemma split_includes c sep s p :
  Payload.includes c s = false → p ∈ Js.split sep s → Payload.includes c p = false.
Proof.
  revert p. induction s as [|a s IH]; simpl; intros p Hc Hin.
  - by apply list_elem_of_singleton in Hin as ->.
  - apply orb_false_iff in Hc as [Ha Hs].
    destruct (Ascii.eqb a sep).
    + apply elem_of_cons in Hin as [->|Hin]; [done|]. by apply IH.
    + destruct (Js.split sep s) as [|q qs] eqn:E.
      * apply list_elem_of_singleton in Hin as ->. simpl. by rewrite Ha.
      * apply elem_of_cons in Hin as [->|Hin].
        -- simpl. rewrite Ha. apply IH; [done|by left].
        -- apply IH; [done|by right].
  Qed.

(** Cutting at a separator: the piece before it, then the pieces of the
    rest. *)
Lemma split_app_sep sep s p :
  Payload.includes sep s = false →
  Js.split sep (append s (String sep p)) = s :: Js.split sep p.
Proof.
  induction s as [|a s IH]; simpl.
  - intros _. by rewrite Ascii.eqb_refl.
  - intros [Ha Hs]%orb_false_iff. rewrite Ha, (IH Hs). done.
Qed.

Lemma split_join sep (pieces : list string) :
  pieces ≠ [] →
  Forall (λ p, Payload.includes sep p = false) pieces →
  Js.split sep (Js.join sep pieces) = pieces.
Proof.
  induction pieces as [|p pieces IH]; [done|]. intros _ Hall.
  apply Forall_cons in Hall as [Hp Hall].
  destruct pieces as [|q pieces]; simpl.
  - by apply split_without.
  - rewrite split_app_sep by done. f_equal. by apply IH.
Qed.

Lemma part_entry_without_colon s :
  Payload.includes ":" s = false → Bot.part_entry s = None.
Proof. intros H. unfold Bot.part_entry. by rewrite (split_without _ _ H). Qed.

Lemma parsePayload_fold_none (parts : list string) (out : gmap string string) :
  Forall (λ p, Bot.part_entry p = None) parts →
  fold_left Bot.parsePayload_step parts out = out.
Proof.
  revert out. induction parts as [|p parts IH]; intros out Hall; simpl; [done|].
  apply Forall_cons in Hall as [Hp Hall].
  rewrite parsePayload_step_entry, Hp. by apply IH.
Qed.

(** X1: a payload without a colon yields the empty map, whatever else it
    holds; so does every payload made of the characters a deep link may
    carry. *)
Theorem parsePayload_without_colon s :
  Payload.includes ":" s = false → Bot.parsePayload (Js.Str s) = ∅.
Proof.
  intros Hs. unfold Bot.parsePayload. simpl. destruct (negb (negb (s =? ""))); [done|].
  apply parsePayload_fold_none, Forall_forall. intros p Hp.
  apply part_entry_without_colon. by apply (split_includes _ ";" s).
Qed.

End PayloadShape.

Lemma parsePayload_without_colon_witness :
  Bot.parsePayload (Js.Str "pkg_auto_199") = ∅.
Proof. apply (parsePayload_without_colon "pkg_auto_199"). reflexivity. Defined.

Section Trim.

Implicit Types (s k v : string) (c : ascii).

Lemma trimStart_length s : (String.length (Js.trimStart s) <= String.length s)%nat.
Proof.
  induction s as [|c s IH]; simpl; [lia|]. destruct (Js.isWhiteSpace c); simpl; lia.
Qed.

(** What [trimStart] leaves does not start with white space. *)
Lemma trimStart_head c s : Js.trimStart (String c s) = String c s → Js.isWhiteSpace c = false.
Proof.
  simpl. destruct (Js.isWhiteSpace c); [|done].
  intros H. pose proof (trimStart_length s) as Hlen. rewrite H in Hlen. simpl in Hlen. lia.
Qed.

Lemma trimStart_idempotent s : Js.trimStart (Js.trimStart s) = Js.trimStart s.
Proof.
  induction s as [|c s IH]; simpl; [done|].
  destruct (Js.isWhiteSpace c) eqn:E; [done|]. simpl. by rewrite E.
Qed.

Lemma trimEnd_idempotent s : Js.trimEnd (Js.trimEnd s) = Js.trimEnd s.
Proof.
  induction s as [|c s IH]; simpl; [done|].
  destruct (Js.trimEnd s) as [|c' r] eqn:E.
  - destruct (Js.isWhiteSpace c) eqn:Ec; simpl; [done|]. by rewrite Ec.
  - simpl in *. by rewrite IH.
Qed.

(** [trimEnd] keeps a first character that is no white space. *)
Lemma trimEnd_head c s :
  Js.isWhiteSpace c = false → ∃ r, Js.trimEnd (String c s) = String c r.
Proof.
  intros Hc. simpl. destruct (Js.trimEnd s) as [|c' r]; rewrite ?Hc; by eexists.
Qed.

Lemma trimStart_trim s : Js.trimStart (Js.trim s) = Js.trim s.
Proof.
  unfold Js.trim. pose proof (trimStart_idempotent s) as Hidem.
  destruct (Js.trimStart s) as [|c t]; [done|].
  pose proof (trimStart_head _ _ Hidem) as Hc.
  destruct (trimEnd_head c t Hc) as [r ->]. simpl. by rewrite Hc.
Qed.

(** Trimming what is trimmed changes nothing. *)
Lemma trim_idempotent s : Js.trim (Js.trim s) = Js.trim s.
Proof.
  unfold Js.trim at 1. rewrite trimStart_trim. unfold Js.trim. apply trimEnd_idempotent.
Qed.

(** X3: no key and no value of the map [parsePayload] returns starts or
    ends with white space: trimming any of them changes nothing. *)
Theorem parsePayload_trimmed (input : Js.value) k v :
  Bot.parsePayload input !! k = Some v → Js.trim k = k ∧ Js.trim v = v.
Proof.
  intros (_ & _ & before & part & after & _ & Hdef & _)%parsePayload_entries.
  destruct Hdef as (key & value & rest & _ & _ & _ & <- & <-).
  split; apply trim_idempotent.
Qed.

End Trim.

Lemma parsePayload_trimmed_witness :
  Js.trim "g" = "g" ∧ Js.trim "match" = "match".
Proof. apply (parsePayload_trimmed (Js.Str "  g : match ;x") "g" "match"). reflexivity. Defined.

Section PayloadRoundTrip.

Implicit Types (s k v : string) (e : string * string) (entries : list (string * string)).
Implicit Types (out : gmap string string).

Local Notation "'part_of' e" := (append (fst e) (String ":" (snd e))) (at level 10).

Lemma clean_spec s :
  Payload.clean s = true ↔
    s ≠ "" ∧ Payload.includes ";" s = false ∧ Payload.includes ":" s = false
    ∧ Js.trim s = s.
Proof.
  unfold Payload.clean. rewrite !andb_true_iff, !negb_true_iff, String.eqb_eq.
  rewrite string_eqb_empty. tauto.
Qed.

Lemma clean_entry_spec e :
  Payload.clean_entry e = true ↔
    Payload.clean (fst e) = true ∧ Payload.clean (snd e) = true ∧ fst e ≠ "__proto__".
Proof.
  unfold Payload.clean_entry. rewrite !andb_true_iff, negb_true_iff.
  destruct (String.eqb_spec (fst e) "__proto__"); intuition congruence.
Qed.

(** One clean entry, written as a part, is read back as it is. *)
Lemma parsePayload_step_clean out e :
  Payload.clean_entry e = true →
  Bot.parsePayload_step out (part_of e) = <[fst e := snd e]> out.
Proof.
  intros (Hk & Hv & Hproto)%clean_entry_spec.
  apply clean_spec in Hk as (Hk0 & _ & Hkc & Hkt), Hv as (Hv0 & _ & Hvc & Hvt).
  rewrite parsePayload_step_entry. unfold Bot.part_entry.
  rewrite (split_app_sep ":" _ _ Hkc), (split_without ":" _ Hvc).
  apply string_eqb_empty in Hk0, Hv0. rewrite Hk0, Hv0, Hkt, Hvt. simpl.
  unfold Js.set. by destruct (String.eqb_spec (fst e) "__proto__").
Qed.

Lemma parsePayload_fold_clean entries out :
  forallb Payload.clean_entry entries = true →
  fold_left Bot.parsePayload_step ((λ e, part_of e) <$> entries) out
  = fold_left (λ o e, <[fst e := snd e]> o) entries out.
Proof.
  revert out. induction entries as [|e entries IH]; intros out; simpl; [done|].
  intros [He Hall]%andb_true_iff. rewrite (parsePayload_step_clean _ _ He). by apply IH.
Qed.

(** Inserting the entries one after the other: a later one wins. *)
Lemma fold_insert_reverse entries :
  fold_left (λ o e, <[fst e := snd e]> o) entries (∅ : gmap string string)
  = list_to_map (reverse entries).
Proof.
  induction entries as [|e entries IH] using rev_ind; [done|].
  rewrite fold_left_app, reverse_app. simpl. rewrite IH. by destruct e.
Qed.

Lemma part_without_semicolon e :
  Payload.clean_entry e = true → Payload.includes ";" (part_of e) = false.
Proof.
  intros (Hk & Hv & _)%clean_entry_spec.
  apply clean_spec in Hk as (_ & Hk & _), Hv as (_ & Hv & _).
  rewrite includes_app. simpl. by rewrite Hk, Hv.
Qed.

Lemma append_not_empty s p : s ≠ "" → append s p ≠ "".
Proof. by destruct s. Qed.

Lemma join_not_empty (p : string) (ps : list string) : p ≠ "" → Js.join ";" (p :: ps) ≠ "".
Proof. intros Hp. destruct ps; simpl; [done|]. by apply append_not_empty. Qed.

(** X2: writing a list of clean entries as a payload and parsing it gives
    the entries back as a map, a later entry winning over an earlier one
    with the same key. *)
Theorem parsePayload_encode entries :
  forallb Payload.clean_entry entries = true →
  Bot.parsePayload (Js.Str (Payload.encode entries)) = list_to_map (reverse entries).
Proof.
  intros Hall. destruct entries as [|e entries]; [done|].
  unfold Bot.parsePayload, Payload.encode. cbn [Js.truthy Js.ToString].
  assert (Js.join ";" ((λ e, part_of e) <$> e :: entries) ≠ "") as Hne.
  { rewrite fmap_cons. apply join_not_empty, append_not_empty.
    apply andb_true_iff in Hall as [(Hk & _)%clean_entry_spec _].
    by apply clean_spec in Hk as (? & _). }
  apply string_eqb_empty in Hne. rewrite Hne. cbn [negb].
  rewrite split_join.
  - rewrite parsePayload_fold_clean by done. apply fold_insert_reverse.
  - done.
  - apply Forall_fmap, Forall_forall. intros x Hx.
    apply part_without_semicolon.
    rewrite forallb_forall in Hall. apply Hall. by apply list_elem_of_In.
Qed.

End PayloadRoundTrip.

Lemma parsePayload_encode_witness :
  Bot.parsePayload (Js.Str "g:match;src:ad 7;g:highrisk")
  = {[ "g" := "highrisk"; "src" := "ad 7" ]}.
Proof.
  apply (parsePayload_encode [("g", "match"); ("src", "ad 7"); ("g", "highrisk")]).
  reflexivity.
Defined.

Section StartHandler.

Import Menu.
Context {T : Type}.
Variable send : call → T → Js.completion () * T.

Implicit Types (w : chat (T:=T)) (c : call) (guide : looked_up).

Lemma seq_return {S A C} (m : Eff.M (S:=S) A) (k : Eff.M C) s a s' :
  m s = (Js.Return a, s') → Eff.seq m k s = k s'.
Proof. unfold Eff.seq, Eff.bind. by intros ->. Qed.

Lemma seq_throw {S A C} (m : Eff.M (S:=S) A) (k : Eff.M C) s e s' :
  m s = (Js.Throw e, s') → Eff.seq m k s = (Js.Throw e, s').
Proof. unfold Eff.seq, Eff.bind. by intros ->. Qed.

Lemma api_accepted c w :
  fst (send c (telegram w)) = Js.Return () →
  api send c w = (Js.Return (), Chat (delivered w ++ [c]) (snd (send c (telegram w)))).
Proof. unfold api. destruct (send c (telegram w)) as [[[]|e] t']; simpl; by intros [=]. Qed.

Lemma api_rejected c w e :
  fst (send c (telegram w)) = Js.Throw e →
  api send c w = (Js.Throw e, Chat (delivered w) (snd (send c (telegram w)))).
Proof.
  unfold api. destruct (send c (telegram w)) as [[[]|e'] t']; simpl; [done|]. by intros [= ->].
Qed.

(** A photo Telegram refuses is replaced by a text: one message either way. *)
Lemma photo_or_text (photo : call) (t : text) (kb : keyboard) w :
  replies_accepted send →
  ∃ t', Eff.try_catch (api send photo) (λ _, api send (reply t kb)) w
        = (Js.Return (),
           Chat (delivered w ++ [match fst (send photo (telegram w)) with
                                 | Js.Return _ => photo
                                 | Js.Throw _ => reply t kb
                                 end]) t').
Proof.
  intros Hreplies. unfold Eff.try_catch.
  destruct (fst (send photo (telegram w))) as [[]|e] eqn:E.
  - rewrite (api_accepted _ _ E). by eexists.
  - rewrite (api_rejected _ _ _ E), api_accepted by apply Hreplies. by eexists.
Qed.

Lemma checklist_sent (steps : list string) w :
  replies_accepted send →
  ∃ t', Eff.for_of steps (λ step, api send (reply (plain step) [])) w
        = (Js.Return (),
           Chat (delivered w ++ ((λ step, reply (plain step) []) <$> steps)) t').
Proof.
  intros Hreplies. revert w. induction steps as [|step steps IH]; intros w; simpl.
  - exists (telegram w). unfold Eff.ret. rewrite app_nil_r. by destruct w.
  - erewrite seq_return by (apply api_accepted, Hreplies).
    edestruct IH as [t' ->]. exists t'. simpl. by rewrite <- app_assoc.
Qed.

Lemma GUIDES_keys g (x : guide) :
  GUIDES !! g = Some x →
  (g = "section43" ∧ x = guide_section43) ∨ (g = "match" ∧ x = guide_match)
  ∨ (g = "highrisk" ∧ x = guide_highrisk).
Proof.
  unfold GUIDES. rewrite !lookup_insert_Some, lookup_singleton_Some.
  intros [[<- <-]|[_ [[<- <-]|[_ [<- <-]]]]]; auto.
Qed.

Lemma GUIDES_four_steps g (x : guide) : GUIDES !! g = Some x → length (checklist x) = 4%nat.
Proof. intros [[_ ->]|[[_ ->]|[_ ->]]]%GUIDES_keys; reflexivity. Qed.

Lemma start_guide_named startPayload :
  start send startPayload
  = match guide_named startPayload with
    | Some guide => crisis send guide
    | None => welcome send
    end.
Proof.
  unfold start, guide_named. destruct (_ !! "g") as [g|]; [|done].
  by destruct (negb _).
Qed.

Lemma guide_named_own startPayload g (x : guide) :
  Bot.parsePayload startPayload !! "g" = Some g → GUIDES !! g = Some x →
  guide_named startPayload = Some (own x).
Proof.
  intros Hg Hx. unfold guide_named, GUIDES_at. rewrite Hg, Hx.
  by destruct (GUIDES_keys _ _ Hx) as [[-> _]|[[-> _]|[-> _]]].
Qed.

Lemma inherited_not_guide g : Js.inherited g = true → GUIDES !! g = None ∧ g ≠ "".
Proof.
  unfold Js.inherited. rewrite existsb_exists. intros (k & Hk & ->%String.eqb_eq).
  simpl in Hk. by repeat destruct Hk as [<-|Hk].
Qed.

Lemma guide_named_inherited startPayload g :
  Bot.parsePayload startPayload !! "g" = Some g → Js.inherited g = true →
  guide_named startPayload = Some from_prototype.
Proof.
  intros Hg Hin. destruct (inherited_not_guide _ Hin) as [Hnone Hne].
  unfold guide_named, GUIDES_at. rewrite Hg, Hnone, Hin.
  apply string_eqb_empty in Hne. by rewrite Hne.
Qed.

(** The crisis flow for a guide of the table, as one outcome. *)
Lemma crisis_flow_own (hero : string) (last : call) (x : guide) w :
  replies_accepted send →
  ∃ t', crisis_flow send hero last (own x) w
        = match fst (send last t') with
          | Js.Return _ =>
              (Js.Return (),
               Chat (delivered w
                     ++ [emergency_first_of send hero (own x) (telegram w)]
                     ++ ((λ step, reply (plain step) []) <$> checklist x)
                     ++ [last]) (snd (send last t')))
          | Js.Throw e =>
              (Js.Throw e,
               Chat (delivered w
                     ++ [emergency_first_of send hero (own x) (telegram w)]
                     ++ ((λ step, reply (plain step) []) <$> checklist x))
                    (snd (send last t')))
          end.
Proof.
  intros Hreplies. unfold crisis_flow.
  destruct (photo_or_text (emergency_photo_of hero (own x))
              (emergency_text (title_of (own x)) (summary_of (own x))) [] w Hreplies)
    as [t1 H1].
  erewrite seq_return by exact H1. simpl checklist_of.
  destruct (checklist_sent (checklist x)
              (Chat (delivered w ++ [emergency_first_of send hero (own x) (telegram w)]) t1)
              Hreplies) as [t2 H2].
  erewrite seq_return by exact H2. exists t2.
  unfold api. cbn [telegram delivered].
  destruct (send last t2) as [[[]|e] t3]; simpl; by rewrite <- !app_assoc.
Qed.

Lemma crisis_own_outcome (x : guide) w :
  replies_accepted send →
  ∃ t', crisis send (own x) w
        = (Js.Return (),
           Chat (delivered w
                 ++ [emergency_first send (own x) (telegram w)]
                 ++ ((λ step, reply (plain step) []) <$> checklist x)
                 ++ [offer]) t').
Proof.
  intros Hreplies. unfold crisis.
  destruct (crisis_flow_own hero_image offer x w Hreplies) as [t' ->].
  pose proof (Hreplies (literal "Ready to resolve this crisis?") crisis_keyboard t') as H.
  fold offer in H. destruct (fst (send offer t')); [by eexists|done].
Qed.

(** The crisis flow for an inherited name. *)
Lemma crisis_flow_inherited (hero : string) (last : call) w :
  replies_accepted send →
  ∃ t', crisis_flow send hero last from_prototype w
        = (Js.Throw (Js.TypeError "guide.checklist is not iterable"),
           Chat (delivered w ++ [emergency_first_of send hero from_prototype (telegram w)]) t').
Proof.
  intros Hreplies. unfold crisis_flow.
  destruct (photo_or_text (emergency_photo_of hero from_prototype)
              (emergency_text None None) [] w Hreplies) as [t1 H1].
  erewrite seq_return by exact H1. by eexists.
Qed.

Lemma crisis_inherited_outcome w :
  replies_accepted send →
  ∃ t', crisis send from_prototype w
        = (Js.Throw (Js.TypeError "guide.checklist is not iterable"),
           Chat (delivered w ++ [emergency_first send from_prototype (telegram w)]) t').
Proof. apply crisis_flow_inherited. Qed.

Lemma welcome_outcome w :
  replies_accepted send →
  ∃ t', welcome send w
        = (Js.Return (), Chat (delivered w ++ [welcome_first send (telegram w)]) t').
Proof.
  intros Hreplies. unfold welcome.
  destruct (photo_or_text welcome_photo (literal "Welcome to MerchantGuard")
              (inline_keyboard (options (Some welcome_text_keyboard))) w Hreplies)
    as [t1 H1].
  unfold welcome_photo in H1. rewrite H1. by eexists.
Qed.

(** X4: the crisis fast-track.  When the start payload names one of the
    three guides and Telegram accepts the text replies, the handler ends
    normally and the chat receives exactly six messages: the emergency
    photo, or the emergency text in its place when the photo is refused,
    then the four steps of the guide's checklist in their order, then the
    offer with its two buttons. *)
Theorem start_crisis_flow startPayload g (x : guide) w :
  replies_accepted send →
  Bot.parsePayload startPayload !! "g" = Some g →
  GUIDES !! g = Some x →
  fst (start send startPayload w) = Js.Return ()
  ∧ delivered (snd (start send startPayload w))
    = (delivered w
       ++ [emergency_first send (own x) (telegram w)]
       ++ ((λ step, reply (plain step) []) <$> checklist x)
       ++ [offer])%list
  ∧ length (delivered (snd (start send startPayload w))) = (length (delivered w) + 6)%nat.
Proof.
  intros Hreplies Hg Hx.
  rewrite start_guide_named, (guide_named_own _ _ _ Hg Hx).
  destruct (crisis_own_outcome x w Hreplies) as [t' ->]. cbn [fst snd delivered].
  split_and!; [done..|].
  rewrite !length_app, length_fmap, (GUIDES_four_steps _ _ Hx). simpl. lia.
Qed.

(** X5: a start payload whose [g] is a name every object inherits
    ([constructor], [toString], [__proto__], ...) passes the guide test.
    The emergency message goes out with an undefined title and summary,
    and the handler then throws on the missing checklist: no step and no
    offer follow. *)
Theorem start_inherited_name startPayload g w :
  replies_accepted send →
  Bot.parsePayload startPayload !! "g" = Some g →
  Js.inherited g = true →
  fst (start send startPayload w)
  = Js.Throw (Js.TypeError "guide.checklist is not iterable")
  ∧ delivered (snd (start send startPayload w))
    = (delivered w ++ [emergency_first send from_prototype (telegram w)])%list.
Proof.
  intros Hreplies Hg Hin.
  rewrite start_guide_named, (guide_named_inherited _ _ Hg Hin).
  by destruct (crisis_inherited_outcome w Hreplies) as [t' ->].
Qed.

(** X6: a start payload that names no guide (no [g] entry, an empty one,
    or one that is neither a guide nor an inherited name) gets the main
    welcome: exactly one message, the hero photo, or the welcome text
    when the photo is refused; the handler ends normally.  Either
    message reaches Telegram without an inline keyboard, the handler
    having written its buttons under [reply_markup] of the options: the
    welcome offers nothing to press. *)
Theorem start_welcome startPayload w :
  replies_accepted send →
  guide_named startPayload = None →
  fst (start send startPayload w) = Js.Return ()
  ∧ delivered (snd (start send startPayload w))
    = (delivered w ++ [welcome_first send (telegram w)])%list
  ∧ (welcome_first send (telegram w) = welcome_photo
     ∨ welcome_first send (telegram w) = welcome_text)
  ∧ pressable (welcome_first send (telegram w)) = [].
Proof.
  intros Hreplies Hnone. rewrite start_guide_named, Hnone.
  destruct (welcome_outcome w Hreplies) as [t' ->].
  split_and!; [done..| |]; unfold welcome_first;
    destruct (fst (send welcome_photo (telegram w))); auto.
Qed.

(** A payload without a colon names no guide. *)
Lemma guide_named_without_colon s :
  Payload.includes ":" s = false → guide_named (Js.Str s) = None.
Proof.
  intros H. unfold guide_named, Bot.parsePayload. simpl.
  destruct (negb (negb (s =? ""))); [done|].
  rewrite parsePayload_fold_none; [done|].
  apply Forall_forall. intros p Hp.
  apply part_entry_without_colon. by apply (split_includes _ ";" s).
Qed.

End StartHandler.

Lemma start_crisis_flow_witness :
  Menu.delivered (snd (Menu.start Menu.refusing_photos (Js.Str "g:match") (Menu.Chat [] ())))
  = ([ Menu.reply (Menu.emergency_text (Some (Menu.title Menu.guide_match))
                     (Some (Menu.summary Menu.guide_match))) [] ]
     ++ ((λ step, Menu.reply (Menu.plain step) []) <$> Menu.checklist Menu.guide_match)
     ++ [ Menu.offer ])%list.
Proof.
  refine (proj1 (proj2 (start_crisis_flow Menu.refusing_photos (Js.Str "g:match") "match"
                          Menu.guide_match (Menu.Chat [] ()) _ _ _))).
  - intros t kb τ. reflexivity.
  - reflexivity.
  - reflexivity.
Defined.

Lemma start_inherited_name_witness :
  fst (Menu.start Menu.accepting (Js.Str "g:constructor") (Menu.Chat [] ()))
  = Js.Throw (Js.TypeError "guide.checklist is not iterable").
Proof.
  refine (proj1 (start_inherited_name Menu.accepting (Js.Str "g:constructor") "constructor"
                   (Menu.Chat [] ()) _ _ _)).
  - intros t kb τ. reflexivity.
  - reflexivity.
  - reflexivity.
Defined.

Lemma start_welcome_witness :
  Menu.delivered (snd (Menu.start Menu.accepting (Js.Str "pkg_auto_199") (Menu.Chat [] ())))
  = [ Menu.replyWithPhoto Menu.hero_image
        (Menu.literal "Stop Getting Rejected. Start Getting Approved.") [] ].
Proof.
  refine (proj1 (proj2 (start_welcome Menu.accepting (Js.Str "pkg_auto_199")
                          (Menu.Chat [] ()) _ _))).
  - intros t kb τ. reflexivity.
  - reflexivity.
Defined.

Section MenuGraph.

Import Menu.

Lemma mem_elem_of d (l : list string) : mem d l = true ↔ d ∈ l.
Proof.
  unfold mem. rewrite existsb_exists, list_elem_of_In. split.
  - by intros (x & Hx & ->%String.eqb_eq).
  - intros Hd. exists d. by rewrite String.eqb_refl.
Qed.

(** The reply of an action reaches Telegram without an inline keyboard. *)
Lemma shown_nothing (a : action) : shown a = [].
Proof. done. Qed.

(** X7: the menu of index.js, as it reaches Telegram.  The only buttons
    a user can ever press are the two of the crisis offer,
    [buy_emergency_199] and [start_guardscore]; both have an action.
    No reply to a press carries a button, every action handler having
    written its keyboard under [reply_markup] of the options: a press
    leads nowhere.  So the other eighteen registered triggers, the
    business and volume questions and the score among them, are never
    pressed. *)
Theorem menu_graph :
  (∀ d, can_press d ↔ d = "buy_emergency_199" ∨ d = "start_guardscore")
  ∧ (∀ d, can_press d → is_Some (route d))
  ∧ (∀ d d', ¬ leads d d')
  ∧ length handled = 20%nat
  ∧ (∀ d, d ∈ handled → d ≠ "buy_emergency_199" → d ≠ "start_guardscore" →
          ¬ can_press d).
Proof.
  assert (∀ d d', ¬ leads d d') as Hleads.
  { intros d d' (a & _ & Hd'). rewrite shown_nothing in Hd'. by apply elem_of_nil in Hd'. }
  assert (∀ d, can_press d ↔ d = "buy_emergency_199" ∨ d = "start_guardscore") as Hpress.
  { intros d. split.
    - intros [d0 Hd|d0 d1 _ Hl]; [|by destruct (Hleads _ _ Hl)].
      change (d0 ∈ ["buy_emergency_199"; "start_guardscore"]) in Hd.
      rewrite !elem_of_cons, elem_of_nil in Hd. tauto.
    - intros Hd. apply press_first.
      change (d ∈ ["buy_emergency_199"; "start_guardscore"]).
      rewrite !elem_of_cons, elem_of_nil. tauto. }
  split_and!; [done| |done|reflexivity|].
  - intros d [-> | ->]%Hpress; by eexists.
  - intros d _ H1 H2 [? | ?]%Hpress; done.
Qed.

End MenuGraph.

Section WebhookBot.

Import Menu.
Context {T : Type}.
Variable send : call → T → Js.completion () * T.
Variable random : Q.

Implicit Types (w : Bot.world (U:=update) (B:=chat (T:=T))).

(** The webhook of index.js over the bot of index.js. *)
Local Notation "'webhook' u w" :=
  (Bot.index_handler (handleUpdate send random) (Bot.Request "POST" u) w)
  (at level 10, u at level 9, w at level 9).

Lemma webhook_returned u w b' :
  handleUpdate send random u (Bot.bot w) = (Js.Return (), b') →
  Bot.sent (snd (webhook u w)) = (Bot.sent w ++ [Bot.Response 200 Bot.OkTrue])%list
  ∧ Bot.bot (snd (webhook u w)) = b'.
Proof.
  intros H. unfold Bot.index_handler, Bot.handler, Bot.try_catch, Bot.io_bind,
    Bot.bot_handleUpdate. simpl. by rewrite H.
Qed.

Lemma webhook_thrown u w e b' :
  handleUpdate send random u (Bot.bot w) = (Js.Throw e, b') →
  Bot.sent (snd (webhook u w))
  = (Bot.sent w ++ [Bot.Response 500 (Bot.ErrorBody "Bot error")])%list
  ∧ Bot.bot (snd (webhook u w)) = b'.
Proof.
  intros H. unfold Bot.index_handler, Bot.handler, Bot.try_catch, Bot.io_bind,
    Bot.bot_handleUpdate. simpl. by rewrite H.
Qed.

(** X8: a press of a button that has an action, posted to the webhook.
    When Telegram accepts the calls, the press is acknowledged, answered
    with the one message of the action, and the webhook responds 200;
    the message reaches Telegram without an inline keyboard, the handler
    having written its buttons under [reply_markup] of the options.
    When Telegram refuses the acknowledgement, no message is sent at all
    and the webhook responds 500. *)
Theorem webhook_button_press data a w :
  route data = Some a →
  (all_accepted send →
   Bot.sent (snd (webhook (callback_query data) w))
   = (Bot.sent w ++ [Bot.Response 200 Bot.OkTrue])%list
   ∧ delivered (Bot.bot (snd (webhook (callback_query data) w)))
     = (delivered (Bot.bot w)
        ++ [answerCbQuery; reply (body a random) []])%list)
  ∧ (∀ e, fst (send answerCbQuery (telegram (Bot.bot w))) = Js.Throw e →
     Bot.sent (snd (webhook (callback_query data) w))
     = (Bot.sent w ++ [Bot.Response 500 (Bot.ErrorBody "Bot error")])%list
     ∧ delivered (Bot.bot (snd (webhook (callback_query data) w))) = delivered (Bot.bot w)).
Proof.
  intros Hroute. split.
  - intros Hall.
    assert (handleUpdate send random (callback_query data) (Bot.bot w)
            = (Js.Return (),
               Chat ((delivered (Bot.bot w) ++ [answerCbQuery])
                     ++ [reply (body a random) []])
                    (snd (send (reply (body a random) [])
                            (snd (send answerCbQuery (telegram (Bot.bot w)))))))) as H.
    { simpl. unfold on_callback, run. rewrite Hroute.
      erewrite seq_return by (apply api_accepted, Hall).
      apply api_accepted, Hall. }
    destruct (webhook_returned _ _ _ H) as [-> ->]. simpl. by rewrite <- app_assoc.
  - intros e He.
    assert (handleUpdate send random (callback_query data) (Bot.bot w)
            = (Js.Throw e,
               Chat (delivered (Bot.bot w))
                    (snd (send answerCbQuery (telegram (Bot.bot w)))))) as H.
    { simpl. unfold on_callback, run. rewrite Hroute.
      erewrite seq_throw by (apply api_rejected, He). reflexivity. }
    by destruct (webhook_thrown _ _ _ _ H) as [-> ->].
Qed.

(** X9: a press of a button that has no action ([biz_other],
    [show_results], or any data the bot never offered) and every update
    that is neither [/start] nor a press: the webhook responds 200, and
    the bot calls Telegram not once: the press is never acknowledged. *)
Theorem webhook_unrouted u w :
  match u with
  | start_command _ => False
  | callback_query data => route data = None
  | other_update => True
  end →
  Bot.sent (snd (webhook u w)) = (Bot.sent w ++ [Bot.Response 200 Bot.OkTrue])%list
  ∧ Bot.bot (snd (webhook u w)) = Bot.bot w.
Proof.
  intros Hu. apply webhook_returned.
  destruct u as [p|data|]; [done| |done]. simpl. unfold on_callback. by rewrite Hu.
Qed.

(** X10: [/start] posted to the webhook, Telegram accepting the text
    replies: the webhook responds 200, unless the payload's [g] is a name
    every object inherits; then it responds 500. *)
Theorem webhook_start startPayload w :
  replies_accepted send →
  Bot.sent (snd (webhook (start_command startPayload) w))
  = (Bot.sent w
     ++ [match guide_named startPayload with
         | Some from_prototype => Bot.Response 500 (Bot.ErrorBody "Bot error")
         | _ => Bot.Response 200 Bot.OkTrue
         end])%list.
Proof.
  intros Hreplies.
  destruct (guide_named startPayload) as [[x|]|] eqn:Hnamed.
  - destruct (crisis_own_outcome send x (Bot.bot w) Hreplies) as [t' H].
    eapply webhook_returned. simpl. rewrite start_guide_named, Hnamed. exact H.
  - destruct (crisis_inherited_outcome send (Bot.bot w) Hreplies) as [t' H].
    eapply webhook_thrown. simpl. rewrite start_guide_named, Hnamed. exact H.
  - destruct (welcome_outcome send (Bot.bot w) Hreplies) as [t' H].
    eapply webhook_returned. simpl. rewrite start_guide_named, Hnamed. exact H.
Qed.

End WebhookBot.

Lemma webhook_button_press_witness :
  Bot.sent (snd (Bot.index_handler (Menu.handleUpdate Menu.accepting 0.5)
                   (Bot.Request "POST" (Menu.callback_query "vol_10k")) Samples.fresh))
  = [Bot.Response 200 Bot.OkTrue]
  ∧ Menu.delivered
      (Bot.bot (snd (Bot.index_handler (Menu.handleUpdate Menu.accepting 0.5)
                       (Bot.Request "POST" (Menu.callback_query "vol_10k")) Samples.fresh)))
    = [ Menu.answerCbQuery; Menu.reply (Menu.score_message 75) [] ].
Proof.
  destruct (Menu.route "vol_10k") as [a|] eqn:Hroute; [|discriminate Hroute].
  pose proof (proj1 (webhook_button_press Menu.accepting 0.5 "vol_10k" a Samples.fresh Hroute)
                (λ c τ, eq_refl)) as H.
  injection Hroute as <-. exact H.
Defined.

Lemma webhook_unrouted_witness :
  Bot.sent (snd (Bot.index_handler (Menu.handleUpdate Menu.accepting 0.5)
                   (Bot.Request "POST" (Menu.callback_query "biz_other")) Samples.fresh))
  = [Bot.Response 200 Bot.OkTrue]
  ∧ Bot.bot (snd (Bot.index_handler (Menu.handleUpdate Menu.accepting 0.5)
                    (Bot.Request "POST" (Menu.callback_query "biz_other")) Samples.fresh))
    = Menu.Chat [] ().
Proof.
  refine (webhook_unrouted Menu.accepting 0.5 (Menu.callback_query "biz_other")
            Samples.fresh _).
  reflexivity.
Defined.

Lemma webhook_start_witness :
  Bot.sent (snd (Bot.index_handler (Menu.handleUpdate Menu.accepting 0.5)
                   (Bot.Request "POST" (Menu.start_command (Js.Str "g:toString")))
                   Samples.fresh))
  = [Bot.Response 500 (Bot.ErrorBody "Bot error")].
Proof.
  refine (webhook_start Menu.accepting 0.5 (Js.Str "g:toString") Samples.fresh _).
  intros t kb τ. reflexivity.
Defined.

Section WebhookLog.

Context {U B : Type}.
Variable handleUpdate : U → B → Js.completion () * B.
Variables ready_message error_text : string.

(** X11: what a request leaves behind besides the response.  When the
    handlers of the bot throw on a POST, the error log gains two lines:
    Telegraf's ['Unhandled error while processing'] with the update, then
    the handler's own with the error thrown; and the exit code of the
    process is set to 1.  Otherwise neither changes.  The bot is left as
    its handlers left it, and untouched by a request that is not a POST;
    the status code set on the response is the one sent. *)
Theorem handler_log (req : Bot.request U) (w : Bot.world) :
  Bot.console (snd (Bot.handler handleUpdate ready_message error_text req w))
  = (Bot.console w
     ++ if String.eqb (Bot.method req) "POST" then
          match fst (handleUpdate (Bot.update req) (Bot.bot w)) with
          | Js.Return _ => []
          | Js.Throw e =>
              [ ("Unhandled error while processing", Bot.update_of (Bot.update req));
                (append error_text ":", Bot.error e) ]
          end
        else [])%list
  ∧ Bot.exitCode (snd (Bot.handler handleUpdate ready_message error_text req w))
    = (if String.eqb (Bot.method req) "POST" then
         match fst (handleUpdate (Bot.update req) (Bot.bot w)) with
         | Js.Return _ => Bot.exitCode w
         | Js.Throw _ => Some 1%Z
         end
       else Bot.exitCode w)
  ∧ Bot.bot (snd (Bot.handler handleUpdate ready_message error_text req w))
    = (if String.eqb (Bot.method req) "POST"
       then snd (handleUpdate (Bot.update req) (Bot.bot w))
       else Bot.bot w)
  ∧ last (Bot.sent (snd (Bot.handler handleUpdate ready_message error_text req w)))
    = Some (Bot.Response
              (Bot.statusCode (snd (Bot.handler handleUpdate ready_message error_text req w)))
              (Bot.json (Bot.owed handleUpdate ready_message error_text req w))).
Proof.
  unfold Bot.handler, Bot.owed, Bot.try_catch, Bot.io_bind, Bot.bot_handleUpdate.
  destruct (String.eqb (Bot.method req) "POST"); simpl.
  - destruct (handleUpdate (Bot.update req) (Bot.bot w)) as [[[]|e] b']; simpl;
      rewrite ?app_nil_r, <- ?app_assoc, last_snoc; done.
  - rewrite app_nil_r, last_snoc. done.
Qed.

End WebhookLog.

Section ScoreRange.

Lemma score_attained :
  forallb (λ n, Js.is_double (Samples.draw_scoring n)
                && Qle_bool 0 (Samples.draw_scoring n)
                && negb (Qle_bool 1 (Samples.draw_scoring n))
                && (Bot.score "" (Samples.draw_scoring n) =? n)%Z)
    (seqZ 60 30) = true.
Proof. vm_compute. reflexivity. Qed.

(** X12: the score of the volume handler is an integer from 60 to 89 for
    every draw of [Math.random()], a double at least 0 and below 1; each
    of these thirty values is the score of some such draw; and 90, the
    upper end the comment names, is never reached: the largest product,
    [(1 - 2^-53) * 30], is rounded to the double just below 30. *)
Theorem score_range (action : string) :
  (∀ random, Js.is_double random = true → (0 <= random < 1)%Q →
             (60 <= Bot.score action random <= 89)%Z)
  ∧ (∀ n, (60 <= n <= 89)%Z →
          ∃ random, Js.is_double random = true ∧ (0 <= random < 1)%Q
                    ∧ Bot.score action random = n).
Proof.
  split; [apply volume_score_range|].
  intros n Hn. exists (Samples.draw_scoring n).
  pose proof score_attained as H. rewrite forallb_forall in H.
  specialize (H n). rewrite <- list_elem_of_In, elem_of_seqZ in H.
  specialize (H ltac:(lia)).
  apply andb_true_iff in H as [[[Hd H0]%andb_true_iff H1]%andb_true_iff Hs].
  apply Qle_bool_iff in H0. apply negb_true_iff, Qle_bool_false in H1.
  apply Z.eqb_eq in Hs. done.
Qed.

(** The rounding of the product shows in the score: on the double
    nearest to 0.7 the exact product lies just below 21, the double
    product is 21, and the score is 81. *)
Example score_rounds_product :
  Js.is_double (6305039478318694 # 9007199254740992) = true
  ∧ Qfloor ((6305039478318694 # 9007199254740992) * 30) = 20%Z
  ∧ Bot.score "vol_10k" (6305039478318694 # 9007199254740992) = 81%Z.
Proof. vm_compute. by split_and!. Qed.

End ScoreRange.

Section GuideReads.

Import Guide.

(** X13: a higher dispute ratio never gets a milder alert. *)
Theorem alert_monotone (r1 r2 : Q) :
  (r1 <= r2)%Q →
  (Samples.alert_level (alert r1) <= Samples.alert_level (alert r2))%nat.
Proof.
  intros Hle. unfold alert.
  destruct (Qle_bool 0.9 r1) eqn:H1, (Qle_bool 0.9 r2) eqn:H2,
           (Qle_bool 0.7 r1) eqn:H3, (Qle_bool 0.7 r2) eqn:H4;
    rewrite ?Qle_bool_iff, ?Qle_bool_false in *; simpl; try lia; lra.
Qed.

(** X14: the local penalty is never zero unless the USD base amount is: an
    amount of zero in the rate table is passed over like a missing entry. *)
Theorem localPenalty_not_zero (t : thresholds_doc) (userCurrency : string) (penalty : Q) :
  ¬ (usd_base (currency_conversions t) == 0)%Q →
  localPenalty t userCurrency = Js.Return penalty →
  ¬ (penalty == 0)%Q.
Proof.
  intros Hbase. unfold localPenalty.
  destruct (_ !! userCurrency) as [entry|]; [|by intros [= <-]].
  destruct (Qeq_bool (amount entry) 0) eqn:E; intros [= <-]; [done|].
  by apply Qeq_bool_neq.
Qed.

End GuideReads.

Lemma alert_monotone_witness :
  (Samples.alert_level (Guide.alert 0.75) <= Samples.alert_level (Guide.alert 0.95))%nat.
Proof. apply (alert_monotone 0.75 0.95). vm_compute. discriminate. Defined.

Lemma localPenalty_not_zero_witness : ¬ (8 == 0)%Q.
Proof.
  refine (localPenalty_not_zero
            {| Guide.regions := ∅; Guide.psp_internal_thresholds := [];
               Guide.currency_conversions :=
                 {| Guide.usd_base := 8;
                    Guide.approximate_rates := {[ "JPY" := {| Guide.amount := 0 |} ]} |} |}
            "JPY" 8 _ _).
  - vm_compute. discriminate.
  - reflexivity.
Defined.

Section CrisisBotActions.

Import Menu.
Context {T : Type}.
Variable send : call → T → Js.completion () * T.

Implicit Types (w : chat (T:=T)).

Lemma exec_guide_button ty (x : guide) :
  GUIDES !! ty = Some x → CrisisBot.exec_guide (append "guide_" ty) = Some ty.
Proof. intros [[-> _]|[[-> _]|[-> _]]]%GUIDES_keys; reflexivity. Qed.

(** X15: the guide buttons of the crisis bot.  A press of [guide_] followed
    by the key of a guide is acknowledged and answered with the whole
    crisis flow: the emergency photo or the text in its place, the four
    steps of the checklist, the offer; seven calls with the
    acknowledgement, when Telegram accepts them. *)
Theorem guide_button_flow ty (x : guide) w :
  all_accepted send →
  GUIDES !! ty = Some x →
  fst (CrisisBot.on_callback send (append "guide_" ty) w) = Js.Return ()
  ∧ delivered (snd (CrisisBot.on_callback send (append "guide_" ty) w))
    = (delivered w
       ++ [answerCbQuery]
       ++ [emergency_photo_of CrisisBot.hero_image (own x)]
       ++ ((λ step, reply (plain step) []) <$> checklist x)
       ++ [offer])%list.
Proof.
  intros Hall Hx. unfold CrisisBot.on_callback, CrisisBot.guide_action.
  rewrite (exec_guide_button _ _ Hx).
  erewrite seq_return by (apply api_accepted, Hall).
  unfold GUIDES_at. rewrite Hx.
  edestruct (crisis_flow_own send CrisisBot.hero_image offer x) as [t' ->].
  { intros t kb τ. apply Hall. }
  rewrite Hall. cbn [fst snd delivered telegram].
  unfold emergency_first_of. rewrite Hall. by rewrite <- !app_assoc.
Qed.

(** X16: the guard [if (!guide) return] of the guide action.  For a type
    that is neither a guide nor a name every object inherits, the press
    is acknowledged and nothing else is sent.  An inherited name
    ([guide_constructor], [guide_toString], ...) passes the guard: after
    the acknowledgement the emergency message goes out with an undefined
    title, and the action throws. *)
Theorem guide_action_guard data ty w :
  all_accepted send →
  CrisisBot.exec_guide data = Some ty →
  GUIDES !! ty = None →
  (Js.inherited ty = false →
   fst (CrisisBot.on_callback send data w) = Js.Return ()
   ∧ delivered (snd (CrisisBot.on_callback send data w))
     = (delivered w ++ [answerCbQuery])%list)
  ∧ (Js.inherited ty = true →
     fst (CrisisBot.on_callback send data w)
     = Js.Throw (Js.TypeError "guide.checklist is not iterable")
     ∧ delivered (snd (CrisisBot.on_callback send data w))
       = (delivered w
          ++ [answerCbQuery; emergency_photo_of CrisisBot.hero_image from_prototype])%list).
Proof.
  intros Hall Hexec Hnone. unfold CrisisBot.on_callback, CrisisBot.guide_action.
  rewrite Hexec. erewrite seq_return by (apply api_accepted, Hall).
  unfold GUIDES_at. rewrite Hnone. split; intros ->.
  - done.
  - edestruct (crisis_flow_inherited send CrisisBot.hero_image offer) as [t' ->].
    { intros t kb τ. apply Hall. }
    cbn [fst snd delivered telegram]. unfold emergency_first_of. rewrite Hall.
    by rewrite <- app_assoc.
Qed.

End CrisisBotActions.

Lemma guide_button_flow_witness :
  Menu.delivered (snd (CrisisBot.on_callback Menu.accepting "guide_highrisk"
                         (Menu.Chat [] ())))
  = ([ Menu.answerCbQuery;
       Menu.emergency_photo_of CrisisBot.hero_image (Menu.own Menu.guide_highrisk) ]
     ++ ((λ step, Menu.reply (Menu.plain step) []) <$> Menu.checklist Menu.guide_highrisk)
     ++ [ Menu.offer ])%list.
Proof.
  exact (proj2 (guide_button_flow Menu.accepting "highrisk" Menu.guide_highrisk
                  (Menu.Chat [] ()) (λ c τ, eq_refl) eq_refl)).
Defined.

Lemma guide_action_guard_witness :
  Menu.delivered (snd (CrisisBot.on_callback Menu.accepting "guide_refund" (Menu.Chat [] ())))
  = [Menu.answerCbQuery].
Proof.
  refine (proj2 (proj1 (guide_action_guard Menu.accepting "guide_refund" "refund"
                          (Menu.Chat [] ()) (λ c τ, eq_refl) eq_refl eq_refl) eq_refl)).
Defined.

Section CrisisBotStart.

Import Menu.
Context {T : Type}.
Variable send : call → T → Js.completion () * T.

(** X17: the default menu of the crisis bot.  A [/start] that names no
    guide gets exactly one message: the hero photo, or the menu text when
    Telegram refuses the photo.  Neither reaches Telegram with an inline
    keyboard: the three guide buttons are written under [reply_markup] of
    the options of the photo, and the text has none.  The menu offers
    nothing to press. *)
Theorem crisis_start_menu startPayload (w : chat (T:=T)) :
  replies_accepted send →
  guide_named startPayload = None →
  fst (CrisisBot.start send startPayload w) = Js.Return ()
  ∧ delivered (snd (CrisisBot.start send startPayload w))
    = (delivered w
       ++ [match fst (send CrisisBot.welcome_photo (telegram w)) with
           | Js.Return _ => CrisisBot.welcome_photo
           | Js.Throw _ => CrisisBot.welcome_text
           end])%list
  ∧ pressable CrisisBot.welcome_photo = []
  ∧ pressable CrisisBot.welcome_text = [].
Proof.
  intros Hreplies Hnone. unfold CrisisBot.start, CrisisBot.welcome. rewrite Hnone.
  unfold CrisisBot.welcome_text at 1 2.
  by destruct (photo_or_text send CrisisBot.welcome_photo
                 (literal "MerchantGuard Crisis Fast-Track")
                 (inline_keyboard (options None)) w Hreplies) as [t' ->].
Qed.

End CrisisBotStart.

Lemma crisis_start_menu_witness :
  Menu.delivered (snd (CrisisBot.start Menu.accepting (Js.Str "guardscore")
                         (Menu.Chat [] ())))
  = [ Menu.replyWithPhoto CrisisBot.hero_image
        (Menu.literal "MerchantGuard Crisis Fast-Track") [] ].
Proof.
  exact (proj1 (proj2 (crisis_start_menu Menu.accepting (Js.Str "guardscore")
                         (Menu.Chat [] ()) (λ t kb τ, eq_refl) eq_refl))).
Defined.

Section CrisisBotFastTrack.

Import Menu.
Context {T : Type}.
Variable send : call → T → Js.completion () * T.

(** X18: the crisis flow of the crisis bot's [/start].  For a payload that
    names a guide the chat receives the emergency message, the four steps
    and, last, the two deep links; none of these six messages carries a
    button the bot has to answer, so the flow ends the conversation
    there. *)
Theorem crisis_start_flow startPayload g (x : guide) (w : chat (T:=T)) :
  replies_accepted send →
  Bot.parsePayload startPayload !! "g" = Some g →
  GUIDES !! g = Some x →
  fst (CrisisBot.start send startPayload w) = Js.Return ()
  ∧ delivered (snd (CrisisBot.start send startPayload w))
    = (delivered w
       ++ [emergency_first_of send CrisisBot.hero_image (own x) (telegram w)]
       ++ ((λ step, reply (plain step) []) <$> checklist x)
       ++ [CrisisBot.next_step])%list
  ∧ Forall (λ c, pressable c = [])
      (drop (length (delivered w)) (delivered (snd (CrisisBot.start send startPayload w)))).
Proof.
  intros Hreplies Hg Hx. unfold CrisisBot.start.
  rewrite (guide_named_own _ _ _ Hg Hx).
  destruct (crisis_flow_own send CrisisBot.hero_image CrisisBot.next_step x w Hreplies)
    as [t' ->].
  pose proof (Hreplies (literal "Next Step:")
                [ url "https://t.me/guardscorebot?start=pkg_auto_199";
                  url "https://t.me/guardscorebot?start=guardscore" ] t') as H.
  fold CrisisBot.next_step in H. rewrite H. cbn [fst snd delivered].
  split_and!; [done..|].
  rewrite drop_app_length. repeat apply Forall_app_2.
  - apply Forall_singleton. unfold emergency_first_of.
    destruct (fst (send (emergency_photo_of CrisisBot.hero_image (own x)) (telegram w)));
      reflexivity.
  - apply Forall_fmap, Forall_true. done.
  - by apply Forall_singleton.
Qed.

End CrisisBotFastTrack.

Lemma crisis_start_flow_witness :
  Menu.delivered (snd (CrisisBot.start Menu.accepting (Js.Str "g:section43") (Menu.Chat [] ())))
  = ([ Menu.emergency_photo_of CrisisBot.hero_image (Menu.own Menu.guide_section43) ]
     ++ ((λ step, Menu.reply (Menu.plain step) []) <$> Menu.checklist Menu.guide_section43)
     ++ [ CrisisBot.next_step ])%list.
Proof.
  refine (proj1 (proj2 (crisis_start_flow Menu.accepting (Js.Str "g:section43") "section43"
                          Menu.guide_section43 (Menu.Chat [] ()) _ _ _))).
  - intros t kb τ. reflexivity.
  - reflexivity.
  - reflexivity.
Defined.

Section TermsBotMenu.

Import Menu.

Lemma terms_elem_of_next d' (ds : list string) :
  d' ∈ TermsBot.next ds ↔ ∃ d, d ∈ ds ∧ TermsBot.leads d d'.
Proof.
  unfold TermsBot.next, TermsBot.leads. rewrite list_elem_of_In, in_concat. split.
  - intros (l & (d & -> & Hd)%list_elem_of_In%list_elem_of_fmap & Hd'%list_elem_of_In).
    exists d. split; [done|]. destruct (TermsBot.route d) as [a|]; [by exists a|].
    by apply elem_of_nil in Hd'.
  - intros (d & Hd & a & Hroute & Hd').
    exists (callbacks (buttons a)). split; [|by apply list_elem_of_In].
    apply list_elem_of_In, list_elem_of_fmap. exists d. by rewrite Hroute.
Qed.

Lemma terms_within_reachable n d : d ∈ TermsBot.within n → TermsBot.reachable d.
Proof.
  revert d. induction n as [|n IH]; intros d Hd.
  - by apply TermsBot.reach_start.
  - simpl in Hd. rewrite list_elem_of_union, elem_of_remove_dups in Hd.
    destruct Hd as [(d0 & Hd0 & Hleads)%terms_elem_of_next|Hd]; [|by apply IH].
    eapply TermsBot.reach_press; [|exact Hleads]. by apply IH.
Qed.

Lemma terms_within_presses : TermsBot.within 1 = TermsBot.presses.
Proof. vm_compute. reflexivity. Qed.

Lemma terms_presses_closed :
  forallb (λ d, mem d TermsBot.presses) (TermsBot.next TermsBot.presses) = true.
Proof. vm_compute. reflexivity. Qed.

Lemma terms_reachable_presses d : TermsBot.reachable d ↔ d ∈ TermsBot.presses.
Proof.
  split.
  - induction 1 as [d Hd|d d' _ IH Hleads].
    + rewrite <- terms_within_presses. simpl.
      rewrite list_elem_of_union. by right.
    + pose proof terms_presses_closed as Hclosed. rewrite forallb_forall in Hclosed.
      apply mem_elem_of, Hclosed, list_elem_of_In, terms_elem_of_next. by exists d.
  - rewrite <- terms_within_presses. apply terms_within_reachable.
Qed.

Lemma terms_presses_routed :
  forallb (λ d, mem d TermsBot.handled
                && match TermsBot.route d with Some _ => true | None => false end)
    TermsBot.presses = true.
Proof. vm_compute. reflexivity. Qed.

Lemma terms_reachable_routed d :
  TermsBot.reachable d → d ∈ TermsBot.handled ∧ is_Some (TermsBot.route d).
Proof.
  intros Hd%terms_reachable_presses.
  pose proof terms_presses_routed as H. rewrite forallb_forall in H.
  apply list_elem_of_In, H, andb_true_iff in Hd as [Hh Hr].
  split; [by apply mem_elem_of|]. by destruct (TermsBot.route d).
Qed.

(** X19: the menu of the terms bot, as it reaches Telegram.  The only
    buttons a user can ever press are the two of the crisis offer,
    [buy_emergency_199] and [start_guardscore]; both have an action.
    The welcome and the reply to [accept_terms] have their keyboards
    under [reply_markup] of the options, so [accept_terms],
    [start_assessment] and [fast_track_199] are registered and never
    pressed. *)
Theorem terms_menu_on_wire :
  (∀ d, TermsBot.can_press d ↔ d = "buy_emergency_199" ∨ d = "start_guardscore")
  ∧ (∀ d, TermsBot.can_press d → is_Some (TermsBot.route d))
  ∧ (∀ d, d ∈ ["accept_terms"; "start_assessment"; "fast_track_199"] →
          d ∈ TermsBot.handled ∧ ¬ TermsBot.can_press d).
Proof.
  assert (∀ d, TermsBot.can_press d ↔ d = "buy_emergency_199" ∨ d = "start_guardscore")
    as Hpress.
  { intros d. split.
    - intros [d0 Hd|d0 a d1 _ _ Hd1].
      + change (d0 ∈ ["buy_emergency_199"; "start_guardscore"]) in Hd.
        rewrite !elem_of_cons, elem_of_nil in Hd. tauto.
      + rewrite shown_nothing in Hd1. by apply elem_of_nil in Hd1.
    - intros Hd. apply TermsBot.press_first.
      change (d ∈ ["buy_emergency_199"; "start_guardscore"]).
      rewrite !elem_of_cons, elem_of_nil. tauto. }
  split_and!; [done| |].
  - intros d [-> | ->]%Hpress; by eexists.
  - intros d Hd. rewrite !elem_of_cons, elem_of_nil in Hd.
    destruct Hd as [->|[->|[->|[]]]];
      (split; [apply mem_elem_of; reflexivity|by intros [? | ?]%Hpress]).
Qed.

Context {T : Type}.
Variable send : call → T → Js.completion () * T.

(** X20: the terms bot answers every press a user can make.  A button
    reached from [/start] along the keyboards the handlers write (an
    upper bound on what a user can press) has an action; when Telegram
    accepts the calls the press is acknowledged and answered with the one
    message of that action, which reaches Telegram without an inline
    keyboard. *)
Theorem terms_bot_answers d (w : chat (T:=T)) :
  all_accepted send →
  TermsBot.reachable d →
  ∃ a, TermsBot.route d = Some a
       ∧ fst (TermsBot.on_callback send d w) = Js.Return ()
       ∧ delivered (snd (TermsBot.on_callback send d w))
         = (delivered w ++ [answerCbQuery; reply (body a 0) []])%list.
Proof.
  intros Hall [_ [a Hroute]]%terms_reachable_routed. exists a. split; [done|].
  unfold TermsBot.on_callback, run. rewrite Hroute.
  erewrite seq_return by (apply api_accepted, Hall).
  unfold api. cbn [telegram delivered].
  rewrite shown_nothing.
  pose proof (Hall (reply (body a 0) []) (snd (send answerCbQuery (telegram w)))) as H.
  destruct (send (reply _ _) _) as [[[]|e] t']; [|done].
  cbn [fst snd delivered]. by rewrite <- app_assoc.
Qed.

End TermsBotMenu.

Lemma terms_bot_answers_witness :
  ∃ a, TermsBot.route "fast_track_199" = Some a
       ∧ fst (TermsBot.on_callback Menu.accepting "fast_track_199" (Menu.Chat [] ()))
         = Js.Return ()
       ∧ Menu.delivered (snd (TermsBot.on_callback Menu.accepting "fast_track_199"
                                (Menu.Chat [] ())))
         = ([] ++ [Menu.answerCbQuery; Menu.reply (Menu.body a 0) []])%list.
Proof.
  apply (terms_bot_answers Menu.accepting "fast_track_199" (Menu.Chat [] ())).
  - intros c τ. reflexivity.
  - apply (TermsBot.reach_press "accept_terms").
    + apply TermsBot.reach_start. vm_compute. apply list_elem_of_In. simpl. tauto.
    + eexists. split; [reflexivity|]. vm_compute. apply list_elem_of_In. simpl. tauto.
Defined.
